(** * GLnexus RocksKeyValue: the KeyValue interface over RocksDB

  A shallow embedding of [src/RocksKeyValue.cc].  The RocksDB engine is an
  external collaborator: its API surface is an interface ([rocksdb.Engine],
  [rocksdb.Iterator]) over an abstract engine state, and the wrapper code is
  written once against that interface.  Every engine call the wrapper makes
  is also recorded in a call log, so that the order and the number of calls
  are observable.  A small in-memory engine ([Ref]) instantiates the
  interface for concrete runs. *)

From Stdlib Require Import ZArith Lia.
From Stdlib Require OrderedTypeEx.
From stdpp Require Import base option list gmap strings sorting.

Open Scope string_scope.
Open Scope list_scope.
Open Scope Z_scope.

(** ** Machine integers (LP64) *)

Module CInt.
(** [size_t]: 64-bit unsigned, arithmetic modulo 2^64. *)
Definition size_t_modulus : Z := 2 ^ 64.
Definition to_size_t (z : Z) : Z := z mod size_t_modulus.
Definition size_t_mul (a b : Z) : Z := to_size_t (a * b).
Definition size_t_div (a b : Z) : Z := a / b.

(** [int]: 32-bit two's complement; a result that does not fit wraps. *)
Definition to_int (z : Z) : Z := (z + 2 ^ 31) mod 2 ^ 32 - 2 ^ 31.
Definition int_shl (a n : Z) : Z := to_int (Z.shiftl a n).

(** [std::min] on [unsigned]. *)
Definition unsigned_min (a b : Z) : Z := if a <? b then a else b.
End CInt.

(** ** The engine's types ([rocksdb/status.h], [rocksdb/options.h]) *)

Module rocksdb.

(** [rocksdb::Status::Code].  The eleven named codes are the ones the
    wrapper's switch lists; [kUnlisted raw] stands for any other value of
    the enumeration (later engine versions add kBusy, kExpired, ...). *)
Inductive Code : Type :=
| kOk | kNotFound | kCorruption | kNotSupported | kInvalidArgument
| kIOError | kMergeInProgress | kIncomplete | kShutdownInProgress
| kTimedOut | kAborted
| kUnlisted (raw : Z).

Record Status : Type := mkStatus { code : Code; ToString : string }.

Definition ok (s : Status) : bool :=
  match code s with kOk => true | _ => false end.

Definition Status_OK : Status := mkStatus kOk "OK".

(** [rocksdb::WriteOptions]; the default constructor clears both flags. *)
Record WriteOptions : Type := mkWriteOptions { sync : bool; disableWAL : bool }.
Definition WriteOptions_default : WriteOptions := mkWriteOptions false false.
Definition set_sync (b : bool) (o : WriteOptions) : WriteOptions :=
  mkWriteOptions b (disableWAL o).
Definition set_disableWAL (b : bool) (o : WriteOptions) : WriteOptions :=
  mkWriteOptions (sync o) b.

(** [rocksdb::ReadOptions] and [rocksdb::FlushOptions] are only ever used
    default-constructed. *)
Inductive ReadOptions : Type := ReadOptions_default.
Inductive FlushOptions : Type := FlushOptions_default.

Inductive CompressionType : Type := kEngineDefaultCompression | kLZ4Compression.
Inductive MemTableRep : Type := SkipListRep | VectorRep.

Record BlockBasedTableOptions : Type := mkBBTO {
  format_version : Z;
  block_size : Z;
  block_cache : Z            (* capacity of the LRU cache, in bytes *)
}.

(** [rocksdb::ColumnFamilyOptions], restricted to the members the wrapper
    writes.  [None] means: left as the engine set it. *)
Record ColumnFamilyOptions : Type := mkCFO {
  level_style_memtable_budget : option Z;   (* OptimizeLevelStyleCompaction *)
  num_levels : option Z;
  compression_per_level : option (list CompressionType);
  compression : CompressionType;
  table_factory : option BlockBasedTableOptions;
  memtable_factory : MemTableRep;
  write_buffer_size : option Z;
  max_write_buffer_number : option Z;
  min_write_buffer_number_to_merge : option Z;
  level0_file_num_compaction_trigger : option Z;
  level0_slowdown_writes_trigger : option Z;
  level0_stop_writes_trigger : option Z;
  source_compaction_factor : option Z
}.

Definition ColumnFamilyOptions_default : ColumnFamilyOptions :=
  mkCFO None None None kEngineDefaultCompression None SkipListRep
        None None None None None None None.

(** Assignments to the members of a [ColumnFamilyOptions].
    [OptimizeLevelStyleCompaction] is the engine's own method; what it derives
    from the budget is the engine's business, the budget is what is kept. *)
Definition OptimizeLevelStyleCompaction (v : Z) (o : ColumnFamilyOptions) : ColumnFamilyOptions :=
  mkCFO (Some v) (num_levels o) (compression_per_level o) (compression o)
    (table_factory o) (memtable_factory o) (write_buffer_size o)
    (max_write_buffer_number o) (min_write_buffer_number_to_merge o)
    (level0_file_num_compaction_trigger o) (level0_slowdown_writes_trigger o)
    (level0_stop_writes_trigger o) (source_compaction_factor o).
Definition set_num_levels (v : Z) (o : ColumnFamilyOptions) : ColumnFamilyOptions :=
  mkCFO (level_style_memtable_budget o) (Some v) (compression_per_level o)
    (compression o) (table_factory o) (memtable_factory o) (write_buffer_size o)
    (max_write_buffer_number o) (min_write_buffer_number_to_merge o)
    (level0_file_num_compaction_trigger o) (level0_slowdown_writes_trigger o)
    (level0_stop_writes_trigger o) (source_compaction_factor o).
Definition set_compression_per_level (v : list CompressionType) (o : ColumnFamilyOptions) : ColumnFamilyOptions :=
  mkCFO (level_style_memtable_budget o) (num_levels o) (Some v) (compression o)
    (table_factory o) (memtable_factory o) (write_buffer_size o)
    (max_write_buffer_number o) (min_write_buffer_number_to_merge o)
    (level0_file_num_compaction_trigger o) (level0_slowdown_writes_trigger o)
    (level0_stop_writes_trigger o) (source_compaction_factor o).
Definition set_compression (v : CompressionType) (o : ColumnFamilyOptions) : ColumnFamilyOptions :=
  mkCFO (level_style_memtable_budget o) (num_levels o) (compression_per_level o) v
    (table_factory o) (memtable_factory o) (write_buffer_size o)
    (max_write_buffer_number o) (min_write_buffer_number_to_merge o)
    (level0_file_num_compaction_trigger o) (level0_slowdown_writes_trigger o)
    (level0_stop_writes_trigger o) (source_compaction_factor o).
Definition set_table_factory (v : BlockBasedTableOptions) (o : ColumnFamilyOptions) : ColumnFamilyOptions :=
  mkCFO (level_style_memtable_budget o) (num_levels o) (compression_per_level o)
    (compression o) (Some v) (memtable_factory o) (write_buffer_size o)
    (max_write_buffer_number o) (min_write_buffer_number_to_merge o)
    (level0_file_num_compaction_trigger o) (level0_slowdown_writes_trigger o)
    (level0_stop_writes_trigger o) (source_compaction_factor o).
Definition set_memtable_factory (v : MemTableRep) (o : ColumnFamilyOptions) : ColumnFamilyOptions :=
  mkCFO (level_style_memtable_budget o) (num_levels o) (compression_per_level o)
    (compression o) (table_factory o) v (write_buffer_size o)
    (max_write_buffer_number o) (min_write_buffer_number_to_merge o)
    (level0_file_num_compaction_trigger o) (level0_slowdown_writes_trigger o)
    (level0_stop_writes_trigger o) (source_compaction_factor o).
Definition set_write_buffer_size (v : Z) (o : ColumnFamilyOptions) : ColumnFamilyOptions :=
  mkCFO (level_style_memtable_budget o) (num_levels o) (compression_per_level o)
    (compression o) (table_factory o) (memtable_factory o) (Some v)
    (max_write_buffer_number o) (min_write_buffer_number_to_merge o)
    (level0_file_num_compaction_trigger o) (level0_slowdown_writes_trigger o)
    (level0_stop_writes_trigger o) (source_compaction_factor o).
Definition set_max_write_buffer_number (v : Z) (o : ColumnFamilyOptions) : ColumnFamilyOptions :=
  mkCFO (level_style_memtable_budget o) (num_levels o) (compression_per_level o)
    (compression o) (table_factory o) (memtable_factory o) (write_buffer_size o)
    (Some v) (min_write_buffer_number_to_merge o)
    (level0_file_num_compaction_trigger o) (level0_slowdown_writes_trigger o)
    (level0_stop_writes_trigger o) (source_compaction_factor o).
Definition set_min_write_buffer_number_to_merge (v : Z) (o : ColumnFamilyOptions) : ColumnFamilyOptions :=
  mkCFO (level_style_memtable_budget o) (num_levels o) (compression_per_level o)
    (compression o) (table_factory o) (memtable_factory o) (write_buffer_size o)
    (max_write_buffer_number o) (Some v) (level0_file_num_compaction_trigger o)
    (level0_slowdown_writes_trigger o) (level0_stop_writes_trigger o)
    (source_compaction_factor o).
Definition set_level0_file_num_compaction_trigger (v : Z) (o : ColumnFamilyOptions) : ColumnFamilyOptions :=
  mkCFO (level_style_memtable_budget o) (num_levels o) (compression_per_level o)
    (compression o) (table_factory o) (memtable_factory o) (write_buffer_size o)
    (max_write_buffer_number o) (min_write_buffer_number_to_merge o) (Some v)
    (level0_slowdown_writes_trigger o) (level0_stop_writes_trigger o)
    (source_compaction_factor o).
Definition set_level0_slowdown_writes_trigger (v : Z) (o : ColumnFamilyOptions) : ColumnFamilyOptions :=
  mkCFO (level_style_memtable_budget o) (num_levels o) (compression_per_level o)
    (compression o) (table_factory o) (memtable_factory o) (write_buffer_size o)
    (max_write_buffer_number o) (min_write_buffer_number_to_merge o)
    (level0_file_num_compaction_trigger o) (Some v) (level0_stop_writes_trigger o)
    (source_compaction_factor o).
Definition set_level0_stop_writes_trigger (v : Z) (o : ColumnFamilyOptions) : ColumnFamilyOptions :=
  mkCFO (level_style_memtable_budget o) (num_levels o) (compression_per_level o)
    (compression o) (table_factory o) (memtable_factory o) (write_buffer_size o)
    (max_write_buffer_number o) (min_write_buffer_number_to_merge o)
    (level0_file_num_compaction_trigger o) (level0_slowdown_writes_trigger o)
    (Some v) (source_compaction_factor o).
Definition set_source_compaction_factor (v : Z) (o : ColumnFamilyOptions) : ColumnFamilyOptions :=
  mkCFO (level_style_memtable_budget o) (num_levels o) (compression_per_level o)
    (compression o) (table_factory o) (memtable_factory o) (write_buffer_size o)
    (max_write_buffer_number o) (min_write_buffer_number_to_merge o)
    (level0_file_num_compaction_trigger o) (level0_slowdown_writes_trigger o)
    (level0_stop_writes_trigger o) (Some v).

(** [rocksdb::Options] derives from [ColumnFamilyOptions] ([cf]) and
    [DBOptions]. *)
Record Options : Type := mkOptions {
  cf : ColumnFamilyOptions;
  max_open_files : option Z;
  max_background_compactions : option Z;
  max_background_flushes : option Z;
  disable_auto_compactions : bool;
  disableDataSync : bool;
  create_if_missing : bool;
  error_if_exists : bool
}.

Definition Options_default : Options :=
  mkOptions ColumnFamilyOptions_default None None None false false false false.

(** Assignments to the members of an [Options]. *)
Definition set_cf (v : ColumnFamilyOptions) (o : Options) : Options :=
  mkOptions v (max_open_files o) (max_background_compactions o)
    (max_background_flushes o) (disable_auto_compactions o) (disableDataSync o)
    (create_if_missing o) (error_if_exists o).
Definition set_max_open_files (v : Z) (o : Options) : Options :=
  mkOptions (cf o) (Some v) (max_background_compactions o)
    (max_background_flushes o) (disable_auto_compactions o) (disableDataSync o)
    (create_if_missing o) (error_if_exists o).
Definition set_max_background_compactions (v : Z) (o : Options) : Options :=
  mkOptions (cf o) (max_open_files o) (Some v) (max_background_flushes o)
    (disable_auto_compactions o) (disableDataSync o) (create_if_missing o)
    (error_if_exists o).
Definition set_max_background_flushes (v : Z) (o : Options) : Options :=
  mkOptions (cf o) (max_open_files o) (max_background_compactions o) (Some v)
    (disable_auto_compactions o) (disableDataSync o) (create_if_missing o)
    (error_if_exists o).
Definition set_disable_auto_compactions (v : bool) (o : Options) : Options :=
  mkOptions (cf o) (max_open_files o) (max_background_compactions o)
    (max_background_flushes o) v (disableDataSync o) (create_if_missing o)
    (error_if_exists o).
Definition set_disableDataSync (v : bool) (o : Options) : Options :=
  mkOptions (cf o) (max_open_files o) (max_background_compactions o)
    (max_background_flushes o) (disable_auto_compactions o) v (create_if_missing o)
    (error_if_exists o).
Definition set_create_if_missing (v : bool) (o : Options) : Options :=
  mkOptions (cf o) (max_open_files o) (max_background_compactions o)
    (max_background_flushes o) (disable_auto_compactions o) (disableDataSync o) v
    (error_if_exists o).
Definition set_error_if_exists (v : bool) (o : Options) : Options :=
  mkOptions (cf o) (max_open_files o) (max_background_compactions o)
    (max_background_flushes o) (disable_auto_compactions o) (disableDataSync o)
    (create_if_missing o) v.

Record ColumnFamilyDescriptor : Type := mkCFD {
  name : string;
  options : ColumnFamilyOptions
}.

(** Pointers handed out by the engine; [nullptr] is 0. *)
Definition DBptr : Type := nat.
Definition ColumnFamilyHandle : Type := nat.

(** [rocksdb::WriteBatch]: the recorded Put operations, oldest first. *)
Definition WriteBatch : Type := list (ColumnFamilyHandle * string * string).

Inductive Priority : Type := LOW | HIGH.

(** One entry of the call log per engine call the wrapper makes. *)
Inductive Call : Type :=
| CallSetBackgroundThreads (n : Z) (pri : Priority)
| CallOpen (o : Options) (path : string)
| CallOpenCF (o : Options) (path : string) (cfs : list ColumnFamilyDescriptor)
| CallOpenForReadOnly (o : Options) (path : string) (cfs : list ColumnFamilyDescriptor)
| CallListColumnFamilies (o : Options) (path : string)
| CallGet (db : DBptr) (h : ColumnFamilyHandle) (k : string)
| CallPut (db : DBptr) (o : WriteOptions) (h : ColumnFamilyHandle) (k v : string)
| CallWrite (db : DBptr) (o : WriteOptions) (b : WriteBatch)
| CallNewIterator (db : DBptr) (h : ColumnFamilyHandle)
| CallCreateColumnFamily (db : DBptr) (o : ColumnFamilyOptions) (nm : string)
| CallCompactRange (db : DBptr) (h : ColumnFamilyHandle)
| CallSyncWAL (db : DBptr)
| CallFlush (db : DBptr) (h : ColumnFamilyHandle)
| CallDeleteHandle (h : ColumnFamilyHandle)
| CallDeleteDB (db : DBptr).

(** [rocksdb::Iterator]: a cursor.  The observers do not move it. *)
Class Iterator (C : Type) : Type := {
  Valid : C → bool;
  status : C → Status;
  key : C → string;
  value : C → string;
  Next : C → C;
  Seek : string → C → C;
  SeekToFirst : C → C
}.

(** Keys are ordered bytewise (the engine's default comparator, and
    [std::less<std::string>]). *)
Definition key_lt (a b : string) : Prop := String.ltb a b = true.
Definition key_le (a b : string) : Prop := String.leb a b = true.

(** What the engine promises of a cursor: [Next] moves to a strictly larger
    key, [Seek] to a key at or past its target. *)
Class OrderedIterator (C : Type) `{!Iterator C} : Prop := {
  next_ascending : ∀ c : C,
    Valid c = true → Valid (Next c) = true → key_lt (key c) (key (Next c));
  seek_lower_bound : ∀ (target : string) (c : C),
    Valid (Seek target c) = true → key_le target (key (Seek target c))
}.

(** [rocksdb::DB] and the static entry points, over an engine state [W]
    (the on-disk databases and everything opened from them). *)
Class Engine (W C : Type) : Type := {
  DB_Open : Options → string → W → Status * DBptr * W;
  DB_OpenCF : Options → string → list ColumnFamilyDescriptor → W →
           Status * list ColumnFamilyHandle * DBptr * W;
  DB_OpenForReadOnly : Options → string → list ColumnFamilyDescriptor → W →
           Status * list ColumnFamilyHandle * DBptr * W;
  DB_ListColumnFamilies : Options → string → W → Status * list string;
  DB_Get : DBptr → ReadOptions → ColumnFamilyHandle → string → W → Status * string;
  DB_Put : DBptr → WriteOptions → ColumnFamilyHandle → string → string → W → Status * W;
  DB_Write : DBptr → WriteOptions → WriteBatch → W → Status * WriteBatch * W;
  DB_NewIterator : DBptr → ReadOptions → ColumnFamilyHandle → W → option C;
  DB_CreateColumnFamily : DBptr → ColumnFamilyOptions → string → W →
           Status * ColumnFamilyHandle * W;
  DB_CompactRange : DBptr → ColumnFamilyHandle → W → W;
  DB_SyncWAL : DBptr → W → W;
  DB_Flush : DBptr → FlushOptions → ColumnFamilyHandle → W → W;
  delete_handle : ColumnFamilyHandle → W → W;
  delete_db : DBptr → W → W
}.

(** The value a batch records last for key [k] of column family [h]. *)
Definition batch_last (b : WriteBatch) (h : ColumnFamilyHandle) (k : string)
    : option string :=
  foldl (λ acc e, if decide (e.1.1 = h ∧ e.1.2 = k) then Some e.2 else acc) None b.

(** What the engine promises of [Write]: the batch handed in is left as it
    was; a failed write changes no read; a successful write makes every
    recorded Put readable and changes no other read. *)
Class AtomicWrite (W C : Type) `{!Engine W C} : Prop := {
  write_keeps_batch : ∀ db o b (w : W), (DB_Write db o b w).1.2 = b;
  write_failed_invisible : ∀ db o b (w : W),
    ok (DB_Write db o b w).1.1 = false →
    ∀ ro h k, DB_Get db ro h k (DB_Write db o b w).2 = DB_Get db ro h k w;
  write_ok_visible : ∀ db o b (w : W),
    ok (DB_Write db o b w).1.1 = true →
    ∀ ro h k,
      match batch_last b h k with
      | Some v =>
          ok (DB_Get db ro h k (DB_Write db o b w).2).1 = true ∧
          (DB_Get db ro h k (DB_Write db o b w).2).2 = v
      | None => DB_Get db ro h k (DB_Write db o b w).2 = DB_Get db ro h k w
      end
}.

End rocksdb.

(** ** GLnexus status values *)

Module StatusCode.
Inductive t : Type :=
| OK | FAILURE | INVALID | NOT_FOUND | EXISTS | IO_ERROR | NOT_IMPLEMENTED.

Global Instance eq_dec : EqDecision t.
Proof. solve_decision. Defined.
End StatusCode.

Module Status.
(** Modelled from the spec: the [Status] class lives in a header that is not
    part of the translated source.  Its kinds are the closed taxonomy (OK,
    NotFound, Exists, Invalid, IOError, NotImplemented, Failure); each
    factory is called in the source with no argument, with a message, or
    with a message and a second string (the engine's diagnostic, or the
    name concerned), which are kept as given. *)
Record t : Type := mk {
  code : StatusCode.t;
  msg : option string;
  noun : option string
}.

Definition bare (c : StatusCode.t) : t := mk c None None.
Definition with_msg (c : StatusCode.t) (m : string) : t := mk c (Some m) None.
Definition with_noun (c : StatusCode.t) (m n : string) : t := mk c (Some m) (Some n).

Definition OK : t := bare StatusCode.OK.
Definition NotFound : t := bare StatusCode.NOT_FOUND.
Definition NotFound2 : string → string → t := with_noun StatusCode.NOT_FOUND.
Definition NotImplemented : t := bare StatusCode.NOT_IMPLEMENTED.
Definition Failure : t := bare StatusCode.FAILURE.
Definition Failure1 : string → t := with_msg StatusCode.FAILURE.
Definition Failure2 : string → string → t := with_noun StatusCode.FAILURE.
Definition Invalid2 : string → string → t := with_noun StatusCode.INVALID.
Definition IOError2 : string → string → t := with_noun StatusCode.IO_ERROR.
Definition Exists2 : string → string → t := with_noun StatusCode.EXISTS.

Definition ok (s : t) : bool := bool_decide (code s = StatusCode.OK).
Definition bad (s : t) : bool := negb (ok s).
End Status.

(** [convertStatus]: a rocksdb Status into a GLnexus Status. *)
Definition convertStatus (s : rocksdb.Status) : Status.t :=
match rocksdb.code s with
| rocksdb.kOk => Status.OK
| rocksdb.kNotFound => Status.NotFound
| rocksdb.kCorruption => Status.Failure1 "corruption"
| rocksdb.kNotSupported => Status.NotImplemented
| rocksdb.kInvalidArgument =>
    Status.Invalid2 "RocksDB kInvalidArgument" (rocksdb.ToString s)
| rocksdb.kIOError => Status.IOError2 "RocksDB kIOError" (rocksdb.ToString s)
| rocksdb.kMergeInProgress => Status.Failure1 "merge in progress"
| rocksdb.kIncomplete => Status.Failure1 "incomplete"
| rocksdb.kShutdownInProgress => Status.Failure1 "shutdown in progress"
| rocksdb.kTimedOut => Status.Failure1 "timed out"
| rocksdb.kAborted => Status.Failure1 "aborted"
| rocksdb.kUnlisted _ => Status.Failure2 "other reason" (rocksdb.ToString s)
end.

(** ** Operating modes *)

Module OpenMode.
(** Modelled from the spec: the [OpenMode] enumeration is declared in
    RocksKeyValue.h, which is not part of the translated source; the source
    names its three values. *)
Inductive t : Type := NORMAL | BULK_LOAD | READ_ONLY.

Global Instance eq_dec : EqDecision t.
Proof. solve_decision. Defined.
End OpenMode.

(** ** The process: host queries, the static of [totalRAM], the engine *)

(** What the host answers: [sysconf] returns a [long] (-1 on failure),
    [std::thread::hardware_concurrency] an [unsigned]. *)
Record Host : Type := mkHost {
  sc_phys_pages : Z;
  sc_pagesize : Z;
  hardware_concurrency : Z
}.

(** The state every function of the file runs in: the host, the function-local
    static [memoized] of [totalRAM] (zero-initialised) with a count of the
    times physical memory was queried, the engine's state, and the log of
    engine calls made so far (oldest first). *)
Record World (W : Type) : Type := mkWorld {
  host : Host;
  memoized : Z;
  ram_queries : nat;
  engine : W;
  calls : list rocksdb.Call
}.
Arguments mkWorld {W} _ _ _ _ _.
Arguments host {W} _.
Arguments memoized {W} _.
Arguments ram_queries {W} _.
Arguments engine {W} _.
Arguments calls {W} _.

Definition initial_world {W : Type} (h : Host) (w : W) : World W :=
  mkWorld h 0 0%nat w [].

(** State passing, with stdpp's [x ← m; k] notation. *)
Definition M (W A : Type) : Type := World W → A * World W.

Global Instance M_ret (W : Type) : MRet (M W) := λ A a σ, (a, σ).
Global Instance M_bind (W : Type) : MBind (M W) :=
  λ A B f m σ, let '(a, σ') := m σ in f a σ'.

Definition result {W A : Type} (r : A * World W) : A := fst r.
Definition final {W A : Type} (r : A * World W) : World W := snd r.

Section Process.
Context {W : Type}.

(** An engine call that may change the engine's state. *)
Definition engine_call {A : Type} (c : rocksdb.Call) (f : W → A * W) : M W A :=
  λ σ, let '(a, w) := f (engine σ) in
       (a, mkWorld (host σ) (memoized σ) (ram_queries σ) w (calls σ ++ [c])).

(** An engine call whose result is ignored by the caller. *)
Definition engine_do (c : rocksdb.Call) (f : W → W) : M W unit :=
  engine_call c (λ w, (tt, f w)).

(** An engine call that only reads. *)
Definition engine_read {A : Type} (c : rocksdb.Call) (f : W → A) : M W A :=
  engine_call c (λ w, (f w, w)).

(** [for (const auto& x : xs) body(x);] *)
Fixpoint for_each {A : Type} (xs : list A) (body : A → M W unit) : M W unit :=
  match xs with
  | [] => mret tt
  | x :: xs' => _ ← body x; for_each xs' body
  end.

(** [for (const auto& x : xs) ys.push_back(body(x));] *)
Fixpoint for_collect {A B : Type} (xs : list A) (body : A → M W B) : M W (list B) :=
  match xs with
  | [] => mret []
  | x :: xs' => y ← body x; ys ← for_collect xs' body; mret (y :: ys)
  end.

(** [totalRAM]: physical memory in bytes, memoised in a function-local
    static.  [4<<30] is an [int] expression. *)
Definition totalRAM : M W Z :=
  λ σ,
    if memoized σ =? 0 then
      let memoized1 :=
        CInt.size_t_mul (CInt.to_size_t (sc_phys_pages (host σ)))
                        (CInt.to_size_t (sc_pagesize (host σ))) in
      let memoized2 :=
        if memoized1 =? 0 then CInt.to_size_t (CInt.int_shl 4 30) else memoized1 in
      (memoized2,
       mkWorld (host σ) memoized2 (S (ram_queries σ)) (engine σ) (calls σ))
    else (memoized σ, σ).

(** [std::thread::hardware_concurrency()] *)
Definition std_thread_hardware_concurrency : M W Z :=
  λ σ, (hardware_concurrency (host σ), σ).

(** [ApplyColumnFamilyOptions]: the per-collection tuning for a mode. *)
Definition ApplyColumnFamilyOptions (mode : OpenMode.t)
    (opts : rocksdb.ColumnFamilyOptions) : M W rocksdb.ColumnFamilyOptions :=
  let opts := rocksdb.OptimizeLevelStyleCompaction (CInt.int_shl 1 30) opts in
  let opts := rocksdb.set_num_levels 5 opts in
  let opts := rocksdb.set_compression_per_level [] opts in
  let opts := rocksdb.set_compression rocksdb.kLZ4Compression opts in
  ram ← totalRAM;
  let bbto := rocksdb.mkBBTO 2 (64 * 1024) (CInt.size_t_div ram 4) in
  let opts := rocksdb.set_table_factory bbto opts in
  if decide (mode = OpenMode.BULK_LOAD) then
    let opts := rocksdb.set_memtable_factory rocksdb.VectorRep opts in
    ram ← totalRAM;
    let opts := rocksdb.set_write_buffer_size (CInt.size_t_div ram 8) opts in
    let opts := rocksdb.set_max_write_buffer_number 6 opts in
    let opts := rocksdb.set_min_write_buffer_number_to_merge 1 opts in
    let opts := rocksdb.set_level0_file_num_compaction_trigger (CInt.int_shl 1 30) opts in
    let opts := rocksdb.set_level0_slowdown_writes_trigger (CInt.int_shl 1 30) opts in
    let opts := rocksdb.set_level0_stop_writes_trigger (CInt.int_shl 1 30) opts in
    let opts := rocksdb.set_source_compaction_factor (CInt.int_shl 1 30) opts in
    mret opts
  else mret opts.

(** [ApplyDBOptions]: the database-wide tuning for a mode.  The two
    [SetBackgroundThreads] calls go to the engine's environment. *)
Definition ApplyDBOptions (mode : OpenMode.t) (opts : rocksdb.Options)
    : M W rocksdb.Options :=
  cfo ← ApplyColumnFamilyOptions mode (rocksdb.cf opts);
  let opts := rocksdb.set_cf cfo opts in
  let opts := rocksdb.set_max_open_files (-1) opts in
  hc ← std_thread_hardware_concurrency;
  let compactions := CInt.unsigned_min hc 16 in
  let opts := rocksdb.set_max_background_compactions compactions opts in
  hc ← std_thread_hardware_concurrency;
  let flushes := CInt.unsigned_min hc 4 in
  let opts := rocksdb.set_max_background_flushes flushes opts in
  _ ← engine_do (rocksdb.CallSetBackgroundThreads compactions rocksdb.LOW) id;
  _ ← engine_do (rocksdb.CallSetBackgroundThreads flushes rocksdb.HIGH) id;
  if decide (mode = OpenMode.BULK_LOAD) then
    let opts := rocksdb.set_disable_auto_compactions true opts in
    let opts := rocksdb.set_disableDataSync true opts in
    mret opts
  else mret opts.

End Process.

(** ** [std::map<const std::string, rocksdb::ColumnFamilyHandle*>] *)

(** The map is a [gmap]; a range-for over a [std::map] visits the entries in
    ascending key order, which [std_map_entries] produces. *)
Definition name_le (p q : string * rocksdb.ColumnFamilyHandle) : Prop :=
  Is_true (String.leb p.1 q.1).

Global Instance name_le_dec : RelDecision name_le.
Proof. intros p q. unfold name_le. apply _. Defined.

Definition std_map_entries (m : gmap string rocksdb.ColumnFamilyHandle)
    : list (string * rocksdb.ColumnFamilyHandle) :=
  merge_sort name_le (map_to_list m).

(** [KeyValue::CollectionHandle]: the column-family pointer, reinterpreted. *)
Definition CollectionHandle : Type := rocksdb.ColumnFamilyHandle.

(** ** class Iterator *)

Module Iterator.
Section Iterator.
Context {C : Type} `{!rocksdb.Iterator C}.

Record t : Type := mk {
  iter_ : C;
  key_ : string;
  value_ : string
}.

(** The constructor: [key_] and [value_] start as empty strings and are
    filled only when the cursor is valid. *)
Definition new (iter : C) : t :=
  if rocksdb.Valid iter
  then mk iter (rocksdb.key iter) (rocksdb.value iter)
  else mk iter "" "".

Definition valid (self : t) : bool := rocksdb.Valid (iter_ self).

Definition key (self : t) : string := key_ self.
Definition value (self : t) : string := value_ self.

Definition next (self : t) : Status.t * t :=
  if negb (rocksdb.ok (rocksdb.status (iter_ self))) then
    (convertStatus (rocksdb.status (iter_ self)), self)
  else
    let iter := rocksdb.Next (iter_ self) in
    if negb (rocksdb.ok (rocksdb.status iter)) then
      (convertStatus (rocksdb.status iter), mk iter (key_ self) (value_ self))
    else if rocksdb.Valid iter then
      (Status.OK, mk iter (rocksdb.key iter) (rocksdb.value iter))
    else
      (Status.OK, mk iter (key_ self) (value_ self)).

End Iterator.
Arguments t C : clear implicits.
End Iterator.

(** ** class Reader *)

Module Reader.
Section Reader.
Context {W C : Type} `{!rocksdb.Iterator C} `{!rocksdb.Engine W C}.

Record t : Type := mk { db_ : rocksdb.DBptr }.

(** [get]: the out-parameter [value] is assigned whatever the engine left in
    [v_tmp], also on failure. *)
Definition get (self : t) (coll : CollectionHandle) (key : string)
    : M W (Status.t * string) :=
  '(s, v_tmp) ← engine_read (rocksdb.CallGet (db_ self) coll key)
      (rocksdb.DB_Get (db_ self) rocksdb.ReadOptions_default coll key);
  mret (convertStatus s, v_tmp).

(** [iterator]: the out-parameter [it] is assigned on success only. *)
Definition iterator (self : t) (coll : CollectionHandle) (key : string)
    : M W (Status.t * option (Iterator.t C)) :=
  rit ← engine_read (rocksdb.CallNewIterator (db_ self) coll)
      (rocksdb.DB_NewIterator (db_ self) rocksdb.ReadOptions_default coll);
  match rit with
  | None => mret (Status.Failure1 "rocksdb::DB::NewIterator()", None)
  | Some rit =>
      let rit :=
        if bool_decide (key = "") then rocksdb.SeekToFirst rit
        else rocksdb.Seek key rit in
      if negb (rocksdb.ok (rocksdb.status rit)) then
        mret (convertStatus (rocksdb.status rit), None)
      else
        mret (Status.OK, Some (Iterator.new rit))
  end.

End Reader.
End Reader.

(** ** class WriteBatch *)

Module WriteBatch.
Section WriteBatch.
Context {W C : Type} `{!rocksdb.Engine W C}.

(** The three members.  [batch_write_options_] is a [const] reference, bound
    by the constructor to the member of the [DB] that makes the batch.  That
    member is assigned in the constructor of [DB] only, so what the reference
    reads is at all times the value it was bound to, which the record
    holds. *)
Record t : Type := mk {
  wb_ : rocksdb.WriteBatch;
  db_ : rocksdb.DBptr;
  batch_write_options_ : rocksdb.WriteOptions
}.

Definition new (db : rocksdb.DBptr) (batch_write_options : rocksdb.WriteOptions) : t :=
  mk [] db batch_write_options.

Definition put (self : t) (coll : CollectionHandle) (key value : string)
    : Status.t * t :=
  (Status.OK,
   mk (wb_ self ++ [(coll, key, value)]) (db_ self) (batch_write_options_ self)).

(** [db_->Write(batch_write_options_, wb_)] hands the engine a non-const
    pointer to the batch: what [wb_] holds afterwards is what the engine left
    there.  [commit] itself assigns no member. *)
Definition commit (self : t) : M W (Status.t * t) :=
  '(s, wb) ←
    engine_call
      (rocksdb.CallWrite (db_ self) (batch_write_options_ self) (wb_ self))
      (rocksdb.DB_Write (db_ self) (batch_write_options_ self) (wb_ self));
  mret (convertStatus s, mk wb (db_ self) (batch_write_options_ self)).

End WriteBatch.
End WriteBatch.

(** ** class DB *)

Module DB.
Section DB.
Context {W C : Type} `{!rocksdb.Iterator C} `{!rocksdb.Engine W C}.

Record t : Type := mk {
  db_ : rocksdb.DBptr;
  coll2handle_ : gmap string rocksdb.ColumnFamilyHandle;
  mode_ : OpenMode.t;
  write_options_ : rocksdb.WriteOptions;
  batch_write_options_ : rocksdb.WriteOptions
}.

(** The private constructor: both option members are default-constructed,
    then adjusted by mode. *)
Definition new (db : rocksdb.DBptr)
    (coll2handle : gmap string rocksdb.ColumnFamilyHandle)
    (mode : OpenMode.t) : t :=
  if decide (mode = OpenMode.BULK_LOAD) then
    mk db coll2handle mode
       (rocksdb.set_disableWAL true rocksdb.WriteOptions_default)
       (rocksdb.set_disableWAL true rocksdb.WriteOptions_default)
  else
    mk db coll2handle mode
       rocksdb.WriteOptions_default
       (rocksdb.set_sync true rocksdb.WriteOptions_default).

(** [new DB(...)] does not return null, so [db.reset(...)] leaves [db]
    non-null; the branch on [!db] is kept as written. *)
Definition Initialize (dbPath : string) : M W (Status.t * option t) :=
  options ← ApplyDBOptions OpenMode.NORMAL rocksdb.Options_default;
  let options := rocksdb.set_create_if_missing true options in
  let options := rocksdb.set_error_if_exists true options in
  '(s, rawdb) ← engine_call (rocksdb.CallOpen options dbPath)
      (rocksdb.DB_Open options dbPath);
  if negb (rocksdb.ok s) then mret (convertStatus s, None)
  else
    let coll2handle : gmap string rocksdb.ColumnFamilyHandle := ∅ in
    let db := Some (new rawdb coll2handle OpenMode.NORMAL) in
    match db with
    | None =>
        _ ← engine_do (rocksdb.CallDeleteDB rawdb) (rocksdb.delete_db rawdb);
        mret (Status.Failure, None)
    | Some d => mret (Status.OK, Some d)
    end.

(** [coll2handle[column_family_names[i]] = column_family_handles[i]] for
    every index of the descriptor vector.  On success the engine returns one
    handle per descriptor; reading past the end of the handle vector is not
    modelled. *)
Definition fill_coll2handle (column_family_names : list string)
    (column_family_handles : list rocksdb.ColumnFamilyHandle)
    : gmap string rocksdb.ColumnFamilyHandle :=
  foldl (λ m p, <[p.1 := p.2]> m) ∅ (zip column_family_names column_family_handles).

Definition Open (dbPath : string) (mode : OpenMode.t) : M W (Status.t * option t) :=
  options ← ApplyDBOptions mode rocksdb.Options_default;
  let options := rocksdb.set_create_if_missing false options in
  '(s, column_family_names) ←
      engine_read (rocksdb.CallListColumnFamilies options dbPath)
        (rocksdb.DB_ListColumnFamilies options dbPath);
  if negb (rocksdb.ok s) then mret (convertStatus s, None)
  else
    column_families ← for_collect column_family_names (λ nm,
      colopts ← ApplyColumnFamilyOptions mode rocksdb.ColumnFamilyOptions_default;
      mret (rocksdb.mkCFD nm colopts));
    '(s, column_family_handles, rawdb) ←
      (if decide (mode = OpenMode.READ_ONLY) then
         engine_call (rocksdb.CallOpenForReadOnly options dbPath column_families)
           (rocksdb.DB_OpenForReadOnly options dbPath column_families)
       else
         engine_call (rocksdb.CallOpenCF options dbPath column_families)
           (rocksdb.DB_OpenCF options dbPath column_families));
    if negb (rocksdb.ok s) then mret (convertStatus s, None)
    else
      let coll2handle := fill_coll2handle column_family_names column_family_handles in
      let db := Some (new rawdb coll2handle mode) in
      match db with
      | None =>
          _ ← for_each column_family_handles (λ h,
                engine_do (rocksdb.CallDeleteHandle h) (rocksdb.delete_handle h));
          _ ← engine_do (rocksdb.CallDeleteDB rawdb) (rocksdb.delete_db rawdb);
          mret (Status.Failure, None)
      | Some d => mret (Status.OK, Some d)
      end.

(** The destructor [~DB]. *)
Definition dtor (self : t) : M W unit :=
  _ ← (if decide (mode_ self = OpenMode.BULK_LOAD) then
         for_each (std_map_entries (coll2handle_ self)) (λ p,
           engine_do (rocksdb.CallCompactRange (db_ self) p.2)
             (rocksdb.DB_CompactRange (db_ self) p.2))
       else mret tt);
  _ ← (if decide (mode_ self ≠ OpenMode.READ_ONLY) then
         _ ← engine_do (rocksdb.CallSyncWAL (db_ self)) (rocksdb.DB_SyncWAL (db_ self));
         for_each (std_map_entries (coll2handle_ self)) (λ p,
           engine_do (rocksdb.CallFlush (db_ self) p.2)
             (rocksdb.DB_Flush (db_ self) rocksdb.FlushOptions_default p.2))
       else mret tt);
  _ ← for_each (std_map_entries (coll2handle_ self)) (λ p,
         engine_do (rocksdb.CallDeleteHandle p.2) (rocksdb.delete_handle p.2));
  engine_do (rocksdb.CallDeleteDB (db_ self)) (rocksdb.delete_db (db_ self)).

(** [collection]: the out-parameter [coll] is assigned on success only. *)
Definition collection (self : t) (name : string)
    : Status.t * option CollectionHandle :=
  match coll2handle_ self !! name with
  | Some h => (Status.OK, Some h)
  | None => (Status.NotFound2 "column family does not exist" name, None)
  end.

Definition create_collection (self : t) (name : string) : M W (Status.t * t) :=
  if decide (is_Some (coll2handle_ self !! name)) then
    mret (Status.Exists2 "column family already exists" name, self)
  else
    colopts ← ApplyColumnFamilyOptions (mode_ self) rocksdb.ColumnFamilyOptions_default;
    '(s, handle) ←
      engine_call (rocksdb.CallCreateColumnFamily (db_ self) colopts name)
        (rocksdb.DB_CreateColumnFamily (db_ self) colopts name);
    if negb (rocksdb.ok s) then mret (convertStatus s, self)
    else
      mret (Status.OK,
            mk (db_ self) (<[name := handle]> (coll2handle_ self)) (mode_ self)
               (write_options_ self) (batch_write_options_ self)).

Definition current (self : t) : Status.t * Reader.t :=
  (Status.OK, Reader.mk (db_ self)).

(** The new batch is bound to this object's [batch_write_options_]. *)
Definition begin_writes (self : t) : Status.t * WriteBatch.t :=
  (Status.OK, WriteBatch.new (db_ self) (batch_write_options_ self)).

Definition get (self : t) (coll : CollectionHandle) (key : string)
    : M W (Status.t * string) :=
  '(s, v_tmp) ← engine_read (rocksdb.CallGet (db_ self) coll key)
      (rocksdb.DB_Get (db_ self) rocksdb.ReadOptions_default coll key);
  mret (convertStatus s, v_tmp).

Definition put (self : t) (coll : CollectionHandle) (key value : string)
    : M W Status.t :=
  s ← engine_call (rocksdb.CallPut (db_ self) (write_options_ self) coll key value)
      (rocksdb.DB_Put (db_ self) (write_options_ self) coll key value);
  mret (convertStatus s).

End DB.
End DB.

(** The free functions [Initialize] and [Open] forward to the static members. *)
Definition Initialize {W C : Type} `{!rocksdb.Iterator C} `{!rocksdb.Engine W C}
    (dbPath : string) : M W (Status.t * option DB.t) :=
  DB.Initialize dbPath.

Definition Open {W C : Type} `{!rocksdb.Iterator C} `{!rocksdb.Engine W C}
    (dbPath : string) (mode : OpenMode.t) : M W (Status.t * option DB.t) :=
  DB.Open dbPath mode.

(** ** A client's scan *)

(** [for (; it->valid(); s = it->next()) visit(it->key());], stopping at the
    first failed [next] and after at most [n] entries. *)
Fixpoint scan {C : Type} `{!rocksdb.Iterator C} (n : nat) (it : Iterator.t C)
    : list string :=
  match n with
  | O => []
  | S n' =>
      if Iterator.valid it then
        Iterator.key it ::
          (if Status.ok (Iterator.next it).1 then scan n' (Iterator.next it).2 else [])
      else []
  end.

(** ** A reference engine

    An in-memory stand-in for RocksDB, enough to run the wrapper.  Databases
    live on [disk] by path; a column family is an id into [data], and the
    handle the engine hands out for it is that id.  Failures can be injected:
    [fault] makes the next mutating call fail, [iter_fuse] makes new cursors
    record an error after a number of moves. *)

Module Ref.

Record Cursor : Type := mkCursor {
  snap : gmap string string;
  pos : option (string * string);
  cstatus : rocksdb.Status;
  fuse : option (nat * rocksdb.Status)
}.

(** The entry with the least key among those whose key satisfies [p]. *)
Definition first_where (p : string → bool) (m : gmap string string)
    : option (string * string) :=
  foldr (λ e acc,
           if p e.1 then
             match acc with
             | Some a => if String.ltb a.1 e.1 then Some a else Some e
             | None => Some e
             end
           else acc)
        None (map_to_list m).

Definition move (p : string → bool) (c : Cursor) : Cursor :=
  if negb (rocksdb.ok (cstatus c)) then c
  else
    match fuse c with
    | Some (O, s) => mkCursor (snap c) None s None
    | Some (S n, s) => mkCursor (snap c) (first_where p (snap c)) (cstatus c) (Some (n, s))
    | None => mkCursor (snap c) (first_where p (snap c)) (cstatus c) None
    end.

Global Instance cursor : rocksdb.Iterator Cursor := {|
  rocksdb.Valid c := bool_decide (is_Some (pos c)) && rocksdb.ok (cstatus c);
  rocksdb.status c := cstatus c;
  rocksdb.key c := from_option fst "" (pos c);
  rocksdb.value c := from_option snd "" (pos c);
  rocksdb.Next c :=
    match pos c with
    | Some e => move (String.ltb e.1) c
    | None => c
    end;
  rocksdb.Seek target c := move (String.leb target) c;
  rocksdb.SeekToFirst c := move (λ _, true) c
|}.

Record State : Type := mkState {
  disk : gmap string (gmap string nat);
  data : gmap nat (gmap string string);
  opened : gmap nat (string * bool);
  next_id : nat;
  fault : option rocksdb.Status;
  iter_fuse : option (nat * rocksdb.Status)
}.

Definition empty : State := mkState ∅ ∅ ∅ 1%nat None None.

Definition invalid_argument (what : string) : rocksdb.Status :=
  rocksdb.mkStatus rocksdb.kInvalidArgument ("Invalid argument: " +:+ what).
Definition io_error (what : string) : rocksdb.Status :=
  rocksdb.mkStatus rocksdb.kIOError ("IO error: " +:+ what).
Definition not_supported : rocksdb.Status :=
  rocksdb.mkStatus rocksdb.kNotSupported
    "Not implemented: Not supported operation in read only mode.".
Definition not_found : rocksdb.Status :=
  rocksdb.mkStatus rocksdb.kNotFound "NotFound: ".

(** The injected failure, if one is pending and is a failure. *)
Definition pending (w : State) : option rocksdb.Status :=
  match fault w with
  | Some s => if rocksdb.ok s then None else Some s
  | None => None
  end.

Definition clear_fault (w : State) : State :=
  mkState (disk w) (data w) (opened w) (next_id w) None (iter_fuse w).

Definition with_data (d : gmap nat (gmap string string)) (w : State) : State :=
  mkState (disk w) d (opened w) (next_id w) (fault w) (iter_fuse w).

(** [DB::Open(options, path, &db)]: opens (or creates) the database with its
    default column family only. *)
Definition ref_Open (o : rocksdb.Options) (path : string) (w : State)
    : rocksdb.Status * rocksdb.DBptr * State :=
  match pending w with
  | Some s => (s, 0%nat, clear_fault w)
  | None =>
      match disk w !! path with
      | Some _ =>
          if rocksdb.error_if_exists o then
            (invalid_argument (path +:+ ": exists (error_if_exists is true)"), 0%nat, w)
          else
            (rocksdb.Status_OK, next_id w,
             mkState (disk w) (data w) (<[next_id w := (path, false)]> (opened w))
                     (S (next_id w)) (fault w) (iter_fuse w))
      | None =>
          if rocksdb.create_if_missing o then
            (rocksdb.Status_OK, S (next_id w),
             mkState (<[path := {["default" := next_id w]}]> (disk w))
                     (<[next_id w := ∅]> (data w))
                     (<[S (next_id w) := (path, false)]> (opened w))
                     (S (S (next_id w))) (fault w) (iter_fuse w))
          else
            (invalid_argument (path +:+ ": does not exist (create_if_missing is false)"),
             0%nat, w)
      end
  end.

Definition ref_ListColumnFamilies (o : rocksdb.Options) (path : string) (w : State)
    : rocksdb.Status * list string :=
  match disk w !! path with
  | Some fams => (rocksdb.Status_OK, (std_map_entries fams).*1)
  | None => (io_error (path +:+ "/CURRENT: No such file or directory"), [])
  end.

(** The handles of the named column families, if all exist. *)
Fixpoint resolve (fams : gmap string nat) (cfs : list rocksdb.ColumnFamilyDescriptor)
    : option (list rocksdb.ColumnFamilyHandle) :=
  match cfs with
  | [] => Some []
  | d :: cfs' =>
      match fams !! rocksdb.name d, resolve fams cfs' with
      | Some h, Some hs => Some (h :: hs)
      | _, _ => None
      end
  end.

Definition ref_OpenCF (read_only : bool) (o : rocksdb.Options) (path : string)
    (cfs : list rocksdb.ColumnFamilyDescriptor) (w : State)
    : rocksdb.Status * list rocksdb.ColumnFamilyHandle * rocksdb.DBptr * State :=
  match pending w with
  | Some s => (s, [], 0%nat, clear_fault w)
  | None =>
      match disk w !! path with
      | None =>
          (invalid_argument (path +:+ ": does not exist (create_if_missing is false)"),
           [], 0%nat, w)
      | Some fams =>
          match resolve fams cfs with
          | None => (invalid_argument "Column family not found", [], 0%nat, w)
          | Some hs =>
              (rocksdb.Status_OK, hs, next_id w,
               mkState (disk w) (data w) (<[next_id w := (path, read_only)]> (opened w))
                       (S (next_id w)) (fault w) (iter_fuse w))
          end
      end
  end.

Definition ref_Get (db : rocksdb.DBptr) (ro : rocksdb.ReadOptions)
    (h : rocksdb.ColumnFamilyHandle) (k : string) (w : State)
    : rocksdb.Status * string :=
  match opened w !! db, data w !! h with
  | Some _, Some m =>
      match m !! k with
      | Some v => (rocksdb.Status_OK, v)
      | None => (not_found, "")
      end
  | _, _ => (invalid_argument "unknown database or column family", "")
  end.

(** The Puts of a batch, applied oldest first. *)
Definition apply_batch (b : rocksdb.WriteBatch) (d : gmap nat (gmap string string))
    : gmap nat (gmap string string) :=
  foldl (λ d e, alter (insert e.1.2 e.2) e.1.1 d) d b.

Definition known_handles (b : rocksdb.WriteBatch) (d : gmap nat (gmap string string))
    : bool :=
  forallb (λ e, bool_decide (is_Some (d !! e.1.1))) b.

Definition ref_Write (db : rocksdb.DBptr) (o : rocksdb.WriteOptions)
    (b : rocksdb.WriteBatch) (w : State)
    : rocksdb.Status * rocksdb.WriteBatch * State :=
  match opened w !! db with
  | None => (invalid_argument "unknown database", b, w)
  | Some (_, true) => (not_supported, b, w)
  | Some (_, false) =>
      match pending w with
      | Some s => (s, b, clear_fault w)
      | None =>
          if known_handles b (data w) then
            (rocksdb.Status_OK, b, with_data (apply_batch b (data w)) w)
          else (invalid_argument "unknown column family", b, w)
      end
  end.

Definition ref_Put (db : rocksdb.DBptr) (o : rocksdb.WriteOptions)
    (h : rocksdb.ColumnFamilyHandle) (k v : string) (w : State)
    : rocksdb.Status * State :=
  let r := ref_Write db o [(h, k, v)] w in (r.1.1, r.2).

Definition ref_NewIterator (db : rocksdb.DBptr) (ro : rocksdb.ReadOptions)
    (h : rocksdb.ColumnFamilyHandle) (w : State) : option Cursor :=
  match opened w !! db, data w !! h with
  | Some _, Some m => Some (mkCursor m None rocksdb.Status_OK (iter_fuse w))
  | _, _ => None
  end.

Definition ref_CreateColumnFamily (db : rocksdb.DBptr) (o : rocksdb.ColumnFamilyOptions)
    (nm : string) (w : State)
    : rocksdb.Status * rocksdb.ColumnFamilyHandle * State :=
  match opened w !! db with
  | None => (invalid_argument "unknown database", 0%nat, w)
  | Some (_, true) => (not_supported, 0%nat, w)
  | Some (path, false) =>
      match pending w with
      | Some s => (s, 0%nat, clear_fault w)
      | None =>
          match disk w !! path with
          | None => (io_error (path +:+ ": database removed"), 0%nat, w)
          | Some fams =>
              if decide (is_Some (fams !! nm)) then
                (invalid_argument "Column family already exists", 0%nat, w)
              else
                (rocksdb.Status_OK, next_id w,
                 mkState (<[path := <[nm := next_id w]> fams]> (disk w))
                         (<[next_id w := ∅]> (data w))
                         (opened w) (S (next_id w)) (fault w) (iter_fuse w))
          end
      end
  end.

Definition ref_delete_db (db : rocksdb.DBptr) (w : State) : State :=
  mkState (disk w) (data w) (delete db (opened w)) (next_id w) (fault w) (iter_fuse w).

(** Compaction, WAL sync and flush change where the data sits, not what a
    read returns; releasing a handle frees the handle object only. *)
Global Instance ops : rocksdb.Engine State Cursor := {|
  rocksdb.DB_Open := ref_Open;
  rocksdb.DB_OpenCF := ref_OpenCF false;
  rocksdb.DB_OpenForReadOnly := ref_OpenCF true;
  rocksdb.DB_ListColumnFamilies := ref_ListColumnFamilies;
  rocksdb.DB_Get := ref_Get;
  rocksdb.DB_Put := ref_Put;
  rocksdb.DB_Write := ref_Write;
  rocksdb.DB_NewIterator := ref_NewIterator;
  rocksdb.DB_CreateColumnFamily := ref_CreateColumnFamily;
  rocksdb.DB_CompactRange _ _ w := w;
  rocksdb.DB_SyncWAL _ w := w;
  rocksdb.DB_Flush _ _ _ w := w;
  rocksdb.delete_handle _ w := w;
  rocksdb.delete_db := ref_delete_db
|}.

(** A host with 4 KiB pages, 2^20 of them, and 8 hardware threads. *)
Definition machine : Host := mkHost 1048576 4096 8.

Definition boot : World State := initial_world machine empty.

(** Test hooks: arm the failure injection of the engine inside a world. *)
Definition inject_fault (s : rocksdb.Status) (σ : World State) : World State :=
  mkWorld (host σ) (memoized σ) (ram_queries σ)
    (mkState (disk (engine σ)) (data (engine σ)) (opened (engine σ))
             (next_id (engine σ)) (Some s) (iter_fuse (engine σ)))
    (calls σ).

Definition inject_iter_fuse (n : nat) (s : rocksdb.Status) (σ : World State)
    : World State :=
  mkWorld (host σ) (memoized σ) (ram_queries σ)
    (mkState (disk (engine σ)) (data (engine σ)) (opened (engine σ))
             (next_id (engine σ)) (fault (engine σ)) (Some (n, s)))
    (calls σ).

End Ref.

(** ** Sequences of member calls on one [DB] object *)

Module Client.
Section Client.
Context {W C : Type} `{!rocksdb.Iterator C} `{!rocksdb.Engine W C}.

Inductive Op : Type :=
| collection (name : string)
| create_collection (name : string)
| current
| begin_writes
| get (coll : CollectionHandle) (key : string)
| put (coll : CollectionHandle) (key value : string).

(** One member call; what remains is the object as the call left it. *)
Definition step (op : Op) (d : DB.t) : M W DB.t :=
  match op with
  | collection name => let _ := DB.collection d name in mret d
  | create_collection name => r ← DB.create_collection d name; mret r.2
  | current => let _ := DB.current d in mret d
  | begin_writes => let _ := DB.begin_writes d in mret d
  | get coll key => _ ← DB.get d coll key; mret d
  | put coll key value => _ ← DB.put d coll key value; mret d
  end.

Fixpoint run (ops : list Op) (d : DB.t) : M W DB.t :=
  match ops with
  | [] => mret d
  | op :: ops' => d' ← step op d; run ops' d'
  end.

End Client.
End Client.

(** How many engine calls of a log create the column family [name]. *)
Definition creates (name : string) (c : rocksdb.Call) : bool :=
  match c with
  | rocksdb.CallCreateColumnFamily _ _ nm => bool_decide (nm = name)
  | _ => false
  end.

Definition creations (name : string) (log : list rocksdb.Call) : nat :=
  length (List.filter (creates name) log).

(** ** Vocabulary of the statements *)

(** The kind each engine code is mapped to. *)
Definition kind_of (c : rocksdb.Code) : StatusCode.t :=
  match c with
  | rocksdb.kOk => StatusCode.OK
  | rocksdb.kNotFound => StatusCode.NOT_FOUND
  | rocksdb.kNotSupported => StatusCode.NOT_IMPLEMENTED
  | rocksdb.kInvalidArgument => StatusCode.INVALID
  | rocksdb.kIOError => StatusCode.IO_ERROR
  | _ => StatusCode.FAILURE
  end.

(** The handles of a [DB], in the order a range-for over [coll2handle_]
    visits them. *)
Definition handles_in_order (self : DB.t) : list rocksdb.ColumnFamilyHandle :=
  (std_map_entries (DB.coll2handle_ self)).*2.

(** An engine operation applied to each handle of a list in turn. *)
Definition on_each {W : Type} (f : rocksdb.ColumnFamilyHandle → W → W)
    (hs : list rocksdb.ColumnFamilyHandle) (w : W) : W :=
  foldl (λ w h, f h w) w hs.

(** While the cursor is valid, the stored key is the cursor's. *)
Definition synced {C : Type} `{!rocksdb.Iterator C} (it : Iterator.t C) : Prop :=
  Iterator.valid it = true → Iterator.key it = rocksdb.key (Iterator.iter_ it).

(** One step of [batch_last], and the Puts of a batch to column family [h]
    applied to its entries. *)
Definition batch_pick (h : rocksdb.ColumnFamilyHandle) (k : string)
    (acc : option string) (e : rocksdb.ColumnFamilyHandle * string * string)
    : option string :=
  if decide (e.1.1 = h ∧ e.1.2 = k) then Some e.2 else acc.

Definition batch_store (h : rocksdb.ColumnFamilyHandle)
    (m : gmap string string) (e : rocksdb.ColumnFamilyHandle * string * string)
    : gmap string string :=
  if decide (e.1.1 = h) then <[e.1.2 := e.2]> m else m.

(** 4 GiB, the fallback [totalRAM] is meant to return. *)
Definition four_GiB : Z := 4 * 2 ^ 30.

(** ** Sample runs on the reference engine *)

Module Sample.

(** A fresh database at "/db" with one collection "c". *)
Definition booted : (Status.t * option DB.t) * World Ref.State :=
  Initialize "/db" Ref.boot.
Definition db0 : DB.t :=
  default (DB.new 0%nat ∅ OpenMode.NORMAL) (result booted).2.
Definition created : (Status.t * DB.t) * World Ref.State :=
  DB.create_collection db0 "c" (final booted).
Definition db1 : DB.t := (result created).2.
Definition coll : CollectionHandle := default 0%nat (DB.collection db1 "c").2.

(** Keys "c", "a", "b" put in that order. *)
Definition loaded : World Ref.State :=
  final (DB.put db1 coll "b" "2"
    (final (DB.put db1 coll "a" "1"
      (final (DB.put db1 coll "c" "3" (final created)))))).

Definition reader : Reader.t := (DB.current db1).2.

Definition no_cursor : Ref.Cursor := Ref.mkCursor ∅ None rocksdb.Status_OK None.

(** The iterator [Reader::iterator] makes for a start key, in a world. *)
Definition iterator_from (startKey : string) (σ : World Ref.State)
    : Iterator.t Ref.Cursor :=
  default (Iterator.new no_cursor) (result (Reader.iterator reader coll startKey σ)).2.

(** An iterator on "b", one on "c" (the last key), and one whose cursor has
    recorded an I/O error during an advance. *)
Definition at_b : Iterator.t Ref.Cursor := iterator_from "b" loaded.
Definition at_c : Iterator.t Ref.Cursor := iterator_from "c" loaded.
Definition broken : Iterator.t Ref.Cursor :=
  (Iterator.next
     (iterator_from "a" (Ref.inject_iter_fuse 1 (Ref.io_error "read failed") loaded))).2.

(** A batch of two Puts made by [begin_writes] on [db1]. *)
Definition batch : WriteBatch.t :=
  (WriteBatch.put (WriteBatch.put (DB.begin_writes db1).2 coll "x" "1").2 coll "y" "2").2.

(** The database closed and opened again, read-only. *)
Definition closed : World Ref.State := final (DB.dtor db1 loaded).
Definition reopened : (Status.t * option DB.t) * World Ref.State :=
  Open "/db" OpenMode.READ_ONLY closed.
Definition db_ro : DB.t :=
  default (DB.new 0%nat ∅ OpenMode.READ_ONLY) (result reopened).2.

End Sample.

(** ** Further vocabulary: runs of an iterator, staging a batch *)

(** While the cursor is valid, the stored key and value are the cursor's. *)
Definition coherent {C : Type} `{!rocksdb.Iterator C} (it : Iterator.t C) : Prop :=
  Iterator.valid it = true →
  Iterator.key it = rocksdb.key (Iterator.iter_ it) ∧
  Iterator.value it = rocksdb.value (Iterator.iter_ it).

(** [n] calls of [next] in a row, all of which return OK. *)
Fixpoint advance {C : Type} `{!rocksdb.Iterator C} (n : nat) (it : Iterator.t C)
    : option (Iterator.t C) :=
  match n with
  | O => Some it
  | S n' =>
      if Status.ok (Iterator.next it).1 then advance n' (Iterator.next it).2 else None
  end.

(** [n] calls of [next] in a row, whatever they return. *)
Definition retry {C : Type} `{!rocksdb.Iterator C} (n : nat) (it : Iterator.t C)
    : Iterator.t C :=
  Nat.iter n (λ i, (Iterator.next i).2) it.

(** [batch->put(coll, key, value)] for each entry of a list, in order. *)
Definition stage (ps : list (CollectionHandle * string * string)) (b : WriteBatch.t)
    : WriteBatch.t :=
  foldl (λ b p, (WriteBatch.put b p.1.1 p.1.2 p.2).2) b ps.

(** The two [SetBackgroundThreads] calls [ApplyDBOptions] makes on a host. *)
Definition thread_pool_calls (h : Host) : list rocksdb.Call :=
  [rocksdb.CallSetBackgroundThreads (CInt.unsigned_min (hardware_concurrency h) 16)
     rocksdb.LOW;
   rocksdb.CallSetBackgroundThreads (CInt.unsigned_min (hardware_concurrency h) 4)
     rocksdb.HIGH].

(** * Properties *)

(** ** The status mapping *)

Lemma convertStatus_ok (s : rocksdb.Status) :
  Status.ok (convertStatus s) = rocksdb.ok s.
Proof. unfold convertStatus, rocksdb.ok. destruct (rocksdb.code s); reflexivity. Qed.

Lemma convertStatus_bad (s : rocksdb.Status) :
  rocksdb.ok s = false → Status.bad (convertStatus s) = true.
Proof. intros Hs. unfold Status.bad. rewrite convertStatus_ok, Hs. reflexivity. Qed.

Lemma convertStatus_never_Exists (s : rocksdb.Status) :
  Status.code (convertStatus s) ≠ StatusCode.EXISTS.
Proof. unfold convertStatus. destruct (rocksdb.code s); discriminate. Qed.

Lemma convertStatus_NotFound_iff (s : rocksdb.Status) :
  Status.code (convertStatus s) = StatusCode.NOT_FOUND ↔ rocksdb.code s = rocksdb.kNotFound.
Proof.
  unfold convertStatus. destruct (rocksdb.code s); simpl; split; intros Heq;
    first [ reflexivity | discriminate Heq ].
Qed.

(** C4 (as amended): [convertStatus] is total and yields one value of the
    closed taxonomy for every engine code.  The success code, and only it,
    maps to OK; the kind depends on the code alone; every unlisted code maps
    to Failure with the reason "other reason" and the engine's diagnostic;
    the engine's diagnostic is attached for kInvalidArgument, kIOError and
    unlisted codes and for no other; and a message is carried by every
    error except kNotFound and kNotSupported, which map to bare NotFound and
    NotImplemented. *)
Theorem convertStatus_total_mapping (s : rocksdb.Status) :
  (∃ r : Status.t, convertStatus s = r ∧ Status.code r = kind_of (rocksdb.code s)) ∧
  (convertStatus s = Status.OK ↔ rocksdb.code s = rocksdb.kOk) ∧
  (∀ raw diagnostic,
     convertStatus (rocksdb.mkStatus (rocksdb.kUnlisted raw) diagnostic) =
     Status.Failure2 "other reason" diagnostic) ∧
  (Status.noun (convertStatus s) =
     match rocksdb.code s with
     | rocksdb.kInvalidArgument | rocksdb.kIOError | rocksdb.kUnlisted _ =>
         Some (rocksdb.ToString s)
     | _ => None
     end) ∧
  (Status.msg (convertStatus s) = None ↔
     match rocksdb.code s with
     | rocksdb.kOk | rocksdb.kNotFound | rocksdb.kNotSupported => True
     | _ => False
     end).
Proof.
  unfold convertStatus.
  split; [|split; [|split; [|split]]].
  - eexists; split; [reflexivity|]. destruct (rocksdb.code s); reflexivity.
  - destruct (rocksdb.code s); simpl; split; intros Heq;
      first [ reflexivity | discriminate Heq ].
  - reflexivity.
  - destruct (rocksdb.code s); reflexivity.
  - destruct (rocksdb.code s); simpl; split; intros Heq;
      first [ exact I | reflexivity | discriminate Heq | destruct Heq ].
Qed.

(** C4, as the claim states it, fails: the enumerated error codes kNotFound
    and kNotSupported are mapped to a kind with no message. *)
Lemma convertStatus_NotFound_has_no_message :
  Status.msg (convertStatus (rocksdb.mkStatus rocksdb.kNotFound "NotFound: ")) = None ∧
  Status.msg (convertStatus (rocksdb.mkStatus rocksdb.kNotSupported "Not implemented: ")) = None.
Proof. split; reflexivity. Qed.

(** ** The process state *)

Section ProcessFacts.
Context {W : Type}.

Lemma world_eta (σ : World W) :
  mkWorld (host σ) (memoized σ) (ram_queries σ) (engine σ) (calls σ) = σ.
Proof. destruct σ; reflexivity. Qed.

Lemma for_each_engine_do {A : Type} (xs : list A) (c : A → rocksdb.Call)
    (f : A → W → W) (σ : World W) :
  for_each xs (λ x, engine_do (c x) (f x)) σ =
  (tt, mkWorld (host σ) (memoized σ) (ram_queries σ)
         (foldl (λ w x, f x w) (engine σ) xs) (calls σ ++ (c <$> xs))).
Proof.
  revert σ. induction xs as [|x xs IH]; intros σ; simpl.
  - rewrite app_nil_r, world_eta. reflexivity.
  - unfold mbind, M_bind. unfold engine_do at 1, engine_call at 1. simpl.
    rewrite IH. simpl. rewrite <- app_assoc. reflexivity.
Qed.

(** [totalRAM] leaves the engine and the call log alone. *)
Lemma totalRAM_frame (σ : World W) :
  host (final (totalRAM σ)) = host σ ∧
  engine (final (totalRAM σ)) = engine σ ∧
  calls (final (totalRAM σ)) = calls σ.
Proof. unfold totalRAM, final. destruct (memoized σ =? 0); simpl; auto. Qed.

(** Once the static is non-zero, [totalRAM] returns it without a query. *)
Lemma totalRAM_memoized (σ : World W) :
  memoized σ ≠ 0 → totalRAM σ = (memoized σ, σ).
Proof.
  intros Hm. unfold totalRAM.
  destruct (memoized σ =? 0) eqn:E; [|reflexivity].
  apply Z.eqb_eq in E. contradiction.
Qed.

Lemma ApplyColumnFamilyOptions_frame (mode : OpenMode.t)
    (o : rocksdb.ColumnFamilyOptions) (σ : World W) :
  host (final (ApplyColumnFamilyOptions mode o σ)) = host σ ∧
  engine (final (ApplyColumnFamilyOptions mode o σ)) = engine σ ∧
  calls (final (ApplyColumnFamilyOptions mode o σ)) = calls σ.
Proof.
  unfold ApplyColumnFamilyOptions, mbind, M_bind, final.
  destruct (totalRAM_frame σ) as (Hh & He & Hc).
  destruct (totalRAM σ) as [ram σ1]; simpl in *.
  destruct (decide (mode = OpenMode.BULK_LOAD)); simpl; auto.
  destruct (totalRAM_frame σ1) as (Hh' & He' & Hc').
  destruct (totalRAM σ1) as [ram' σ2]; simpl in *.
  rewrite Hh', He', Hc'. auto.
Qed.

(** [ApplyDBOptions] changes no engine state and keeps the two flags it does
    not assign. *)
Lemma ApplyDBOptions_frame (mode : OpenMode.t) (o : rocksdb.Options) (σ : World W) :
  engine (final (ApplyDBOptions mode o σ)) = engine σ ∧
  rocksdb.create_if_missing (result (ApplyDBOptions mode o σ)) =
    rocksdb.create_if_missing o ∧
  rocksdb.error_if_exists (result (ApplyDBOptions mode o σ)) =
    rocksdb.error_if_exists o.
Proof.
  unfold ApplyDBOptions, std_thread_hardware_concurrency, mbind, M_bind, final, result,
    engine_do, engine_call.
  destruct (ApplyColumnFamilyOptions_frame mode (rocksdb.cf o) σ) as (_ & He & _).
  unfold final in He.
  destruct (ApplyColumnFamilyOptions mode (rocksdb.cf o) σ) as [cfo σ1]; simpl in *.
  destruct (decide (mode = OpenMode.BULK_LOAD)); simpl; auto.
Qed.

(** The descriptors [Open] builds carry the listed names, in order, and
    building them changes no engine state. *)
Lemma descriptors_frame (mode : OpenMode.t) (names : list string) (σ : World W) :
  let r := for_collect names (λ nm,
             colopts ← ApplyColumnFamilyOptions mode rocksdb.ColumnFamilyOptions_default;
             mret (rocksdb.mkCFD nm colopts)) σ in
  rocksdb.name <$> result r = names ∧ engine (final r) = engine σ.
Proof.
  revert σ. induction names as [|nm names IH]; intros σ; simpl; [auto|].
  unfold mbind, M_bind, result, final.
  destruct (ApplyColumnFamilyOptions_frame mode rocksdb.ColumnFamilyOptions_default σ)
    as (_ & He & _). unfold final in He.
  destruct (ApplyColumnFamilyOptions mode _ σ) as [colopts σ1]; simpl in *.
  specialize (IH σ1). simpl in IH. unfold result, final in IH.
  destruct (for_collect names _ σ1) as [ds σ2]; simpl in *.
  destruct IH as [IHn IHe]. split; [f_equal; exact IHn|congruence].
Qed.

End ProcessFacts.

(** What does hold of [totalRAM]: a call that returns a non-zero value has
    stored it, and every later call returns it again without a query. *)
Lemma totalRAM_stable_when_nonzero {W : Type} (σ : World W) :
  result (totalRAM σ) ≠ 0 →
  totalRAM (final (totalRAM σ)) = (result (totalRAM σ), final (totalRAM σ)).
Proof.
  intros Hnz.
  assert (memoized (final (totalRAM σ)) = result (totalRAM σ)) as Hm.
  { unfold totalRAM, final, result. destruct (memoized σ =? 0); reflexivity. }
  rewrite <- Hm in Hnz |- *. by apply totalRAM_memoized.
Qed.

(** C6: [totalRAM] at the inputs where the code departs from the claim.
    When a [sysconf] query fails (returns -1) the product of the two
    [size_t] conversions is not zero, so no fallback is taken and the product
    is returned; when the product is zero the fallback constant [4<<30], an
    [int] expression, is zero and not 4 GiB, the static stays zero, and the
    next call queries again. *)
Theorem totalRAM_fallback_defect :
  let failed := initial_world (mkHost (-1) 4096 8) tt in
  let zero := initial_world (mkHost 0 4096 8) tt in
  four_GiB = 4294967296 ∧
  result (totalRAM failed) = 2 ^ 64 - 4096 ∧
  result (totalRAM (initial_world (mkHost (-1) (-1) 8) tt)) = 1 ∧
  result (totalRAM zero) = 0 ∧
  memoized (final (totalRAM zero)) = 0 ∧
  ram_queries (final (totalRAM zero)) = 1%nat ∧
  ram_queries (final (totalRAM (final (totalRAM zero)))) = 2%nat.
Proof. repeat split; vm_compute; reflexivity. Qed.

(** ** Shutdown *)

Section Shutdown.
Context {W C : Type} `{!rocksdb.Iterator C} `{!rocksdb.Engine W C}.

Lemma handles_in_order_perm (self : DB.t) :
  handles_in_order self ≡ₚ (map_to_list (DB.coll2handle_ self)).*2.
Proof.
  unfold handles_in_order, std_map_entries.
  apply fmap_Permutation, merge_sort_Permutation.
Qed.

Lemma on_each_snd {A : Type} (f : rocksdb.ColumnFamilyHandle → W → W)
    (l : list (A * rocksdb.ColumnFamilyHandle)) (w : W) :
  foldl (λ w p, f p.2 w) w l = on_each f (l.*2) w.
Proof.
  unfold on_each. revert w. induction l as [|p l IH]; intros w; simpl; [reflexivity|].
  apply IH.
Qed.

(** C1: what [~DB] does to the engine, in order.  BULK_LOAD: a full
    compaction of every collection, then the WAL sync and a flush of every
    collection, then the release of every collection handle, then the release
    of the engine handle.  NORMAL: the same without the compactions.
    READ_ONLY: only the releases.  Each phase visits every collection once.
    The call log lists these calls in this order and no other, and the engine
    is left in the state these operations, applied in this order to the state
    it was in, produce. *)
Theorem dtor_shutdown_sequence (self : DB.t) (σ : World W) :
  let db := DB.db_ self in
  let hs := handles_in_order self in
  hs ≡ₚ (map_to_list (DB.coll2handle_ self)).*2 ∧
  engine (final (DB.dtor self σ)) =
    rocksdb.delete_db db
      (on_each rocksdb.delete_handle hs
         match DB.mode_ self with
         | OpenMode.BULK_LOAD =>
             on_each (rocksdb.DB_Flush db rocksdb.FlushOptions_default) hs
               (rocksdb.DB_SyncWAL db
                  (on_each (rocksdb.DB_CompactRange db) hs (engine σ)))
         | OpenMode.NORMAL =>
             on_each (rocksdb.DB_Flush db rocksdb.FlushOptions_default) hs
               (rocksdb.DB_SyncWAL db (engine σ))
         | OpenMode.READ_ONLY => engine σ
         end) ∧
  calls (final (DB.dtor self σ)) =
    calls σ ++
    match DB.mode_ self with
    | OpenMode.BULK_LOAD =>
        (rocksdb.CallCompactRange db <$> hs) ++
        [rocksdb.CallSyncWAL db] ++ (rocksdb.CallFlush db <$> hs) ++
        (rocksdb.CallDeleteHandle <$> hs) ++ [rocksdb.CallDeleteDB db]
    | OpenMode.NORMAL =>
        [rocksdb.CallSyncWAL db] ++ (rocksdb.CallFlush db <$> hs) ++
        (rocksdb.CallDeleteHandle <$> hs) ++ [rocksdb.CallDeleteDB db]
    | OpenMode.READ_ONLY =>
        (rocksdb.CallDeleteHandle <$> hs) ++ [rocksdb.CallDeleteDB db]
    end.
Proof.
  intros db hs. split; [apply handles_in_order_perm|].
  subst db hs. unfold handles_in_order, DB.dtor, final, mbind, M_bind.
  destruct (DB.mode_ self); simpl;
    repeat first
      [ rewrite (for_each_engine_do (std_map_entries (DB.coll2handle_ self))
                   (λ p, rocksdb.CallCompactRange (DB.db_ self) p.2))
      | rewrite (for_each_engine_do (std_map_entries (DB.coll2handle_ self))
                   (λ p, rocksdb.CallFlush (DB.db_ self) p.2))
      | rewrite (for_each_engine_do (std_map_entries (DB.coll2handle_ self))
                   (λ p, rocksdb.CallDeleteHandle p.2))
      | progress simpl ];
    (split;
     [ rewrite ?(on_each_snd (rocksdb.DB_CompactRange (DB.db_ self))),
         ?(on_each_snd (rocksdb.DB_Flush (DB.db_ self) rocksdb.FlushOptions_default)),
         ?(on_each_snd rocksdb.delete_handle); reflexivity
     | rewrite <- ?list_fmap_compose, <- ?app_assoc; reflexivity ]).
Qed.

End Shutdown.

(** ** Write durability *)

(** [put] on a batch appends to [wb_] and assigns no other member. *)
Lemma stage_fields (ps : list (CollectionHandle * string * string)) (b : WriteBatch.t) :
  WriteBatch.wb_ (stage ps b) = WriteBatch.wb_ b ++ ps ∧
  WriteBatch.db_ (stage ps b) = WriteBatch.db_ b ∧
  WriteBatch.batch_write_options_ (stage ps b) = WriteBatch.batch_write_options_ b.
Proof.
  unfold stage. revert b. induction ps as [|[[c k] v] ps IH]; intros b.
  - simpl. rewrite app_nil_r. auto.
  - cbn [foldl].
    destruct (IH (WriteBatch.put b (c, k, v).1.1 (c, k, v).1.2 (c, k, v).2).2)
      as (Hwb & Hdb & Ho).
    rewrite Hwb, Hdb, Ho. simpl. rewrite <- app_assoc. auto.
Qed.

Section Durability.
Context {W C : Type} `{!rocksdb.Iterator C} `{!rocksdb.Engine W C}.

(** No member call assigns the engine pointer, the mode or either of the two
    option members. *)
Lemma step_keeps_configuration (op : Client.Op) (d : DB.t) (σ : World W) :
  let d' := result (Client.step op d σ) in
  DB.db_ d' = DB.db_ d ∧ DB.mode_ d' = DB.mode_ d ∧
  DB.write_options_ d' = DB.write_options_ d ∧
  DB.batch_write_options_ d' = DB.batch_write_options_ d.
Proof.
  destruct op; simpl; unfold result, mbind, M_bind; simpl; auto.
  - unfold DB.create_collection.
    destruct (decide (is_Some (DB.coll2handle_ d !! name))); simpl; auto.
    unfold mbind, M_bind.
    destruct (ApplyColumnFamilyOptions _ _ σ) as [colopts σ1].
    unfold engine_call.
    destruct (rocksdb.DB_CreateColumnFamily _ _ _ _) as [[s h] w'].
    destruct (rocksdb.ok s); simpl; auto.
  - destruct (DB.get d coll key σ) as [r σ1]; simpl; auto.
  - destruct (DB.put d coll key value σ) as [r σ1]; simpl; auto.
Qed.

Lemma run_keeps_configuration (ops : list Client.Op) (d : DB.t) (σ : World W) :
  let d' := result (Client.run ops d σ) in
  DB.db_ d' = DB.db_ d ∧ DB.mode_ d' = DB.mode_ d ∧
  DB.write_options_ d' = DB.write_options_ d ∧
  DB.batch_write_options_ d' = DB.batch_write_options_ d.
Proof.
  revert d σ. induction ops as [|op ops IH]; intros d σ; simpl; auto.
  unfold result, mbind, M_bind.
  pose proof (step_keeps_configuration op d σ) as Hstep. simpl in Hstep.
  unfold result in Hstep.
  destruct (Client.step op d σ) as [d1 σ1]; simpl in *.
  specialize (IH d1 σ1). simpl in IH. unfold result in IH.
  destruct Hstep as (? & ? & ? & ?), IH as (? & ? & ? & ?).
  repeat split; congruence.
Qed.

Lemma new_db_ (db : rocksdb.DBptr)
    (coll2handle : gmap string rocksdb.ColumnFamilyHandle) (mode : OpenMode.t) :
  DB.db_ (DB.new db coll2handle mode) = db ∧
  DB.coll2handle_ (DB.new db coll2handle mode) = coll2handle ∧
  DB.mode_ (DB.new db coll2handle mode) = mode.
Proof. unfold DB.new. destruct (decide _); simpl; auto. Qed.

(** C5: the write options are decided by the mode when the [DB] is
    constructed (NORMAL and READ_ONLY: batches synchronous with the WAL on,
    single puts not synchronous with the WAL on; BULK_LOAD: WAL off for
    both), and no sequence of member calls changes them.  A batch made by
    [begin_writes] is bound to the batch options; neither [put] calls on the
    batch nor later member calls on the [DB] change what it is bound to.
    [DB::put] performs the engine's Put with the single-put options, and
    [commit] performs the engine's Write of the staged batch with the batch
    options: the status returned, the engine state left behind and the call
    logged are those of that one engine operation. *)
Theorem write_durability_fixed_by_mode (db : rocksdb.DBptr)
    (coll2handle : gmap string rocksdb.ColumnFamilyHandle) (mode : OpenMode.t)
    (ops ops' : list Client.Op) (ps : list (CollectionHandle * string * string))
    (coll : CollectionHandle) (key value : string) (σ σ1 σ' : World W) :
  let single :=
    match mode with
    | OpenMode.BULK_LOAD => rocksdb.mkWriteOptions false true
    | _ => rocksdb.mkWriteOptions false false
    end in
  let batch :=
    match mode with
    | OpenMode.BULK_LOAD => rocksdb.mkWriteOptions false true
    | _ => rocksdb.mkWriteOptions true false
    end in
  let d0 := DB.new db coll2handle mode in
  let d := result (Client.run ops d0 σ) in
  let b := stage ps (DB.begin_writes d).2 in
  let d' := result (Client.run ops' d σ1) in
  let engine_put := rocksdb.DB_Put db single coll key value (engine σ') in
  let engine_write := rocksdb.DB_Write db batch ps (engine σ') in
  (DB.write_options_ d0 = single ∧ DB.batch_write_options_ d0 = batch) ∧
  (DB.write_options_ d' = single ∧ DB.batch_write_options_ d' = batch) ∧
  (WriteBatch.batch_write_options_ b = batch ∧ WriteBatch.db_ b = db ∧
   WriteBatch.wb_ b = ps) ∧
  (result (DB.put d' coll key value σ') = convertStatus engine_put.1 ∧
   engine (final (DB.put d' coll key value σ')) = engine_put.2 ∧
   calls (final (DB.put d' coll key value σ')) =
     calls σ' ++ [rocksdb.CallPut db single coll key value]) ∧
  ((result (WriteBatch.commit b σ')).1 = convertStatus engine_write.1.1 ∧
   engine (final (WriteBatch.commit b σ')) = engine_write.2 ∧
   calls (final (WriteBatch.commit b σ')) =
     calls σ' ++ [rocksdb.CallWrite db batch ps]).
Proof.
  intros single batch d0 d b d' engine_put engine_write.
  destruct (run_keeps_configuration ops d0 σ) as (Hdb & _ & Hw & Hb).
  fold d in Hdb, Hw, Hb.
  destruct (run_keeps_configuration ops' d σ1) as (Hdb' & _ & Hw' & Hb').
  fold d' in Hdb', Hw', Hb'.
  assert (DB.db_ d0 = db) as Hdb0 by apply new_db_.
  assert (DB.write_options_ d0 = single ∧ DB.batch_write_options_ d0 = batch)
    as [Hs0 Hb0] by (subst d0 single batch; destruct mode; simpl; auto).
  destruct (stage_fields ps (DB.begin_writes d).2) as (Hwb & Hbdb & Hbo).
  fold b in Hwb, Hbdb, Hbo. simpl in Hwb, Hbdb, Hbo.
  assert (WriteBatch.batch_write_options_ b = batch) as Hbo' by congruence.
  assert (WriteBatch.db_ b = db) as Hbdb' by congruence.
  split; [auto|]. split; [split; congruence|]. split; [auto|]. split.
  - subst engine_put.
    unfold DB.put, result, final, mbind, M_bind, engine_call.
    replace (DB.write_options_ d') with single by congruence.
    replace (DB.db_ d') with db by congruence.
    destruct (rocksdb.DB_Put _ _ _ _ _ _) as [s w']. simpl. auto.
  - subst engine_write.
    unfold WriteBatch.commit, result, final, mbind, M_bind, engine_call.
    rewrite Hbo', Hbdb', Hwb.
    destruct (rocksdb.DB_Write _ _ _ _) as [[s wb] w']. simpl. auto.
Qed.

End Durability.

(** ** The iterator *)

Section IteratorFacts.
Context {C : Type} `{!rocksdb.Iterator C}.

(** [valid], [key] and [value] only read. *)
Lemma Iterator_key_reads_copy (c : C) (k v : string) :
  Iterator.key (Iterator.mk c k v) = k ∧ Iterator.value (Iterator.mk c k v) = v.
Proof. split; reflexivity. Qed.

(** C7: [next] on a cursor that already recorded an error returns that error,
    mapped, and leaves the iterator (cursor included) as it was; an advance
    that succeeds and lands on a valid entry stores that entry's key and
    value in the iterator's own strings, which [key] and [value] return
    whatever the cursor holds; an advance that succeeds and leaves the
    cursor invalid makes [valid] report false. *)
Theorem Iterator_next_contract (it : Iterator.t C) :
  let c := Iterator.iter_ it in
  (rocksdb.ok (rocksdb.status c) = false →
     Iterator.next it = (convertStatus (rocksdb.status c), it) ∧
     Status.bad (convertStatus (rocksdb.status c)) = true) ∧
  (rocksdb.ok (rocksdb.status c) = true →
   rocksdb.ok (rocksdb.status (rocksdb.Next c)) = true →
   rocksdb.Valid (rocksdb.Next c) = true →
     Iterator.next it =
       (Status.OK,
        Iterator.mk (rocksdb.Next c) (rocksdb.key (rocksdb.Next c))
                    (rocksdb.value (rocksdb.Next c))) ∧
     ∀ c' : C,
       Iterator.key (Iterator.mk c' (Iterator.key_ (Iterator.next it).2)
                                    (Iterator.value_ (Iterator.next it).2)) =
         rocksdb.key (rocksdb.Next c) ∧
       Iterator.value (Iterator.mk c' (Iterator.key_ (Iterator.next it).2)
                                      (Iterator.value_ (Iterator.next it).2)) =
         rocksdb.value (rocksdb.Next c)) ∧
  (rocksdb.ok (rocksdb.status c) = true →
   rocksdb.ok (rocksdb.status (rocksdb.Next c)) = true →
   rocksdb.Valid (rocksdb.Next c) = false →
     (Iterator.next it).1 = Status.OK ∧
     Iterator.iter_ (Iterator.next it).2 = rocksdb.Next c ∧
     Iterator.valid (Iterator.next it).2 = false).
Proof.
  intros c. subst c. unfold Iterator.next. split; [|split].
  - intros Herr. rewrite Herr. simpl. split; [reflexivity|].
    unfold Status.bad, Status.ok. unfold convertStatus, rocksdb.ok in *.
    destruct (rocksdb.code _); first [ discriminate Herr | reflexivity ].
  - intros Hok Hok' Hvalid. rewrite Hok, Hok', Hvalid. simpl.
    split; [reflexivity|]. intros c'. split; reflexivity.
  - intros Hok Hok' Hvalid. rewrite Hok, Hok', Hvalid. simpl.
    unfold Iterator.valid. simpl. auto.
Qed.

(** C10: the stored key and value change only when an advance lands on a
    valid entry.  An iterator built on a cursor that is not valid holds two
    empty strings; a [next] that returns an error, or that leaves the cursor
    invalid, leaves both strings as they were; and whenever [next] changes
    one of them, the cursor had no error before or after the advance and
    stands on a valid entry. *)
Theorem Iterator_copies_frame (c0 : C) (it : Iterator.t C) :
  let c := Iterator.iter_ it in
  let it' := (Iterator.next it).2 in
  (rocksdb.Valid c0 = false →
     Iterator.key (Iterator.new c0) = "" ∧ Iterator.value (Iterator.new c0) = "") ∧
  (rocksdb.ok (rocksdb.status c) = true →
   rocksdb.ok (rocksdb.status (rocksdb.Next c)) = true →
   rocksdb.Valid (rocksdb.Next c) = false →
     (Iterator.next it).1 = Status.OK ∧
     Iterator.key it' = Iterator.key it ∧ Iterator.value it' = Iterator.value it) ∧
  (Status.ok (Iterator.next it).1 = false →
     Iterator.key it' = Iterator.key it ∧ Iterator.value it' = Iterator.value it) ∧
  (Iterator.key it' ≠ Iterator.key it ∨ Iterator.value it' ≠ Iterator.value it →
     rocksdb.ok (rocksdb.status c) = true ∧
     rocksdb.ok (rocksdb.status (rocksdb.Next c)) = true ∧
     rocksdb.Valid (rocksdb.Next c) = true ∧
     Iterator.key it' = rocksdb.key (rocksdb.Next c) ∧
     Iterator.value it' = rocksdb.value (rocksdb.Next c)).
Proof.
  intros c it'. subst c it'. unfold Iterator.new, Iterator.next, Iterator.key,
    Iterator.value.
  split; [|split; [|split]].
  - intros Hinvalid. rewrite Hinvalid. split; reflexivity.
  - intros Hok Hok' Hvalid. rewrite Hok, Hok', Hvalid. simpl. auto.
  - destruct (rocksdb.ok (rocksdb.status (Iterator.iter_ it))); simpl; [|auto].
    destruct (rocksdb.ok (rocksdb.status (rocksdb.Next (Iterator.iter_ it))));
      simpl; [|auto].
    destruct (rocksdb.Valid (rocksdb.Next (Iterator.iter_ it))); simpl; [|auto].
    intros Hbad. discriminate Hbad.
  - destruct (rocksdb.ok (rocksdb.status (Iterator.iter_ it))); simpl;
      [|intros [Hne|Hne]; contradiction].
    destruct (rocksdb.ok (rocksdb.status (rocksdb.Next (Iterator.iter_ it))));
      simpl; [|intros [Hne|Hne]; contradiction].
    destruct (rocksdb.Valid (rocksdb.Next (Iterator.iter_ it))); simpl;
      [auto|intros [Hne|Hne]; contradiction].
Qed.
End IteratorFacts.

(** ** The key order *)

Lemma key_lt_iff (a b : string) :
  rocksdb.key_lt a b ↔ OrderedTypeEx.String_as_OT.lt a b.
Proof.
  unfold rocksdb.key_lt, String.ltb.
  rewrite <- OrderedTypeEx.String_as_OT.cmp_lt.
  unfold OrderedTypeEx.String_as_OT.cmp.
  destruct (String.compare a b); split; intros Heq; first [ reflexivity | discriminate Heq ].
Qed.

Lemma key_le_iff (a b : string) :
  rocksdb.key_le a b ↔ a = b ∨ rocksdb.key_lt a b.
Proof.
  unfold rocksdb.key_le, rocksdb.key_lt, String.leb, String.ltb.
  destruct (String.compare a b) eqn:E.
  - apply String.compare_eq_iff in E. split; auto.
  - split; auto.
  - split; [discriminate|]. intros [->|Hlt]; [|discriminate Hlt].
    assert (String.compare b b = Eq) as Hrefl
      by (apply OrderedTypeEx.String_as_OT.cmp_eq; reflexivity).
    congruence.
Qed.

Global Instance key_lt_trans : Transitive rocksdb.key_lt.
Proof.
  intros a b c. rewrite !key_lt_iff. apply OrderedTypeEx.String_as_OT.lt_trans.
Qed.

Lemma key_le_lt_trans (a b c : string) :
  rocksdb.key_le a b → rocksdb.key_lt b c → rocksdb.key_lt a c.
Proof.
  rewrite key_le_iff. intros [->|Hab] Hbc; [exact Hbc|]. by etrans.
Qed.

Lemma key_lt_le (a b : string) : rocksdb.key_lt a b → rocksdb.key_le a b.
Proof. rewrite key_le_iff. auto. Qed.

Lemma key_le_refl (a : string) : rocksdb.key_le a a.
Proof. rewrite key_le_iff. auto. Qed.

(** ** Scans *)

Section ScanFacts.
Context {C : Type} `{!rocksdb.Iterator C}.

Lemma new_synced (c : C) : synced (Iterator.new c) ∧ Iterator.iter_ (Iterator.new c) = c.
Proof.
  unfold synced, Iterator.new, Iterator.valid, Iterator.key.
  destruct (rocksdb.Valid c) eqn:E; simpl; [auto|].
  split; [|reflexivity]. rewrite E. discriminate.
Qed.

(** A [next] that returns OK has moved the cursor by one [Next], and nothing
    else. *)
Lemma next_ok_inv (it : Iterator.t C) :
  Status.ok (Iterator.next it).1 = true →
  Iterator.iter_ (Iterator.next it).2 = rocksdb.Next (Iterator.iter_ it) ∧
  synced (Iterator.next it).2.
Proof.
  unfold Iterator.next, synced, Iterator.valid, Iterator.key.
  destruct (rocksdb.ok (rocksdb.status (Iterator.iter_ it))) eqn:E1; simpl.
  - destruct (rocksdb.ok (rocksdb.status (rocksdb.Next (Iterator.iter_ it)))) eqn:E2; simpl.
    + destruct (rocksdb.Valid (rocksdb.Next (Iterator.iter_ it))) eqn:E3; simpl; [auto|].
      intros _. split; [reflexivity|]. rewrite E3. discriminate.
    + rewrite convertStatus_ok, E2. discriminate.
  - rewrite convertStatus_ok, E1. discriminate.
Qed.

Context `{!rocksdb.OrderedIterator C}.

(** The keys a scan visits ascend strictly, and none precedes the key the
    cursor stood on when the scan began. *)
Lemma scan_ascending (n : nat) (it : Iterator.t C) :
  synced it →
  StronglySorted rocksdb.key_lt (scan n it) ∧
  Forall (λ k, Iterator.valid it = true ∧
               rocksdb.key_le (rocksdb.key (Iterator.iter_ it)) k) (scan n it).
Proof.
  revert it. induction n as [|n IH]; intros it Hsync; simpl.
  { split; constructor. }
  destruct (Iterator.valid it) eqn:Hvalid; [|split; constructor].
  rewrite (Hsync Hvalid).
  destruct (Status.ok (Iterator.next it).1) eqn:Hok.
  - destruct (next_ok_inv it Hok) as [Hcur Hsync'].
    destruct (IH _ Hsync') as [Hsorted Hall].
    assert (Forall (rocksdb.key_lt (rocksdb.key (Iterator.iter_ it)))
              (scan n (Iterator.next it).2)) as Hlt.
    { eapply Forall_impl; [exact Hall|]. simpl. intros k [Hv Hle].
      rewrite Hcur in Hle. unfold Iterator.valid in Hv, Hvalid. rewrite Hcur in Hv.
      apply key_le_iff in Hle. destruct Hle as [<-|Hle].
      - by apply rocksdb.next_ascending.
      - etrans; [|exact Hle]. by apply rocksdb.next_ascending. }
    split.
    + constructor; assumption.
    + constructor; [split; [reflexivity|apply key_le_refl]|].
      eapply Forall_impl; [exact Hlt|]. simpl. intros k Hk.
      split; [reflexivity|by apply key_lt_le].
  - split; [repeat constructor|].
    constructor; [split; [reflexivity|apply key_le_refl]|constructor].
Qed.

End ScanFacts.

(** ** Reader *)

Section ReaderFacts.
Context {W C : Type} `{!rocksdb.Iterator C} `{!rocksdb.Engine W C}.
Context `{!rocksdb.OrderedIterator C}.

(** C8: [Reader::iterator] returns Failure and no iterator when the engine
    hands back no cursor; otherwise it positions the cursor with [Seek
    startKey] when [startKey] is not empty and with [SeekToFirst] when it is,
    returns the mapped error and no iterator when the cursor records an error
    after that, and else returns OK with an iterator on that cursor.  Every
    successful [next] moves that cursor by exactly one [Next]; the keys a
    scan of the iterator visits ascend strictly and, for a non-empty
    [startKey], none precedes [startKey]. *)
Theorem Reader_iterator_contract (self : Reader.t) (coll : CollectionHandle)
    (startKey : string) (σ : World W) :
  let r := Reader.iterator self coll startKey σ in
  match rocksdb.DB_NewIterator (Reader.db_ self) rocksdb.ReadOptions_default coll
          (engine σ) with
  | None => result r = (Status.Failure1 "rocksdb::DB::NewIterator()", None)
  | Some c =>
      let c' :=
        if bool_decide (startKey = "") then rocksdb.SeekToFirst c
        else rocksdb.Seek startKey c in
      if rocksdb.ok (rocksdb.status c') then
        result r = (Status.OK, Some (Iterator.new c')) ∧
        Iterator.iter_ (Iterator.new c') = c' ∧
        (∀ it : Iterator.t C, Status.ok (Iterator.next it).1 = true →
           Iterator.iter_ (Iterator.next it).2 = rocksdb.Next (Iterator.iter_ it)) ∧
        ∀ n : nat,
          StronglySorted rocksdb.key_lt (scan n (Iterator.new c')) ∧
          (startKey ≠ "" → Forall (rocksdb.key_le startKey) (scan n (Iterator.new c')))
      else
        result r = (convertStatus (rocksdb.status c'), None) ∧
        Status.bad (convertStatus (rocksdb.status c')) = true
  end.
Proof.
  intros r. subst r.
  unfold Reader.iterator, result, mbind, M_bind, engine_read, engine_call. simpl.
  destruct (rocksdb.DB_NewIterator _ _ _ _) as [c|]; simpl; [|reflexivity].
  set (c' := if bool_decide (startKey = "") then rocksdb.SeekToFirst c
             else rocksdb.Seek startKey c).
  destruct (rocksdb.ok (rocksdb.status c')) eqn:Hok; simpl.
  - split; [reflexivity|].
    destruct (new_synced c') as [Hsync Hcur].
    split; [exact Hcur|].
    split; [intros it Hit; apply (next_ok_inv it Hit)|].
    intros n. destruct (scan_ascending n _ Hsync) as [Hsorted Hall].
    split; [exact Hsorted|]. intros Hne.
    eapply Forall_impl; [exact Hall|]. simpl. intros k [Hv Hle].
    rewrite Hcur in Hle. unfold Iterator.valid in Hv. rewrite Hcur in Hv.
    subst c'. rewrite bool_decide_eq_false_2 in Hv, Hle by exact Hne.
    pose proof (rocksdb.seek_lower_bound startKey c Hv) as Hseek.
    apply key_le_iff in Hle. destruct Hle as [<-|Hlt]; [exact Hseek|].
    apply key_lt_le. eapply key_le_lt_trans; eassumption.
  - split; [reflexivity|]. by apply convertStatus_bad.
Qed.

End ReaderFacts.

(** ** The reference engine keeps the engine's promises *)

Lemma first_where_sat (p : string → bool) (m : gmap string string) (e : string * string) :
  Ref.first_where p m = Some e → p e.1 = true.
Proof.
  unfold Ref.first_where. generalize (map_to_list m). intros l. revert e.
  induction l as [|x l IH]; intros e; simpl; [discriminate|].
  destruct (p x.1) eqn:Hp; [|apply IH].
  destruct (foldr _ None l) as [a|] eqn:Hacc.
  - destruct (String.ltb a.1 x.1); intros [= <-]; [by apply IH|exact Hp].
  - intros [= <-]. exact Hp.
Qed.

Lemma move_valid (p : string → bool) (c : Ref.Cursor) :
  rocksdb.Valid (Ref.move p c) = true →
  rocksdb.ok (Ref.cstatus c) = true →
  p (rocksdb.key (Ref.move p c)) = true.
Proof.
  unfold Ref.move. intros Hvalid Hok. rewrite Hok in *. simpl in *.
  destruct (Ref.fuse c) as [[[|n] s]|]; simpl in *.
  - discriminate Hvalid.
  - destruct (Ref.first_where p (Ref.snap c)) as [e|] eqn:E; simpl in *;
      [by eapply first_where_sat|discriminate Hvalid].
  - destruct (Ref.first_where p (Ref.snap c)) as [e|] eqn:E; simpl in *;
      [by eapply first_where_sat|discriminate Hvalid].
Qed.

Global Instance Ref_cursor_ordered : rocksdb.OrderedIterator Ref.Cursor.
Proof.
  split.
  - intros c Hvalid Hnext. simpl in Hvalid.
    apply andb_true_iff in Hvalid as [Hpos Hok].
    apply bool_decide_eq_true in Hpos as [e He].
    unfold rocksdb.key_lt. simpl in *. rewrite He in *. simpl.
    by apply (move_valid (String.ltb e.1) c).
  - intros target c Hvalid. unfold rocksdb.key_le. simpl in *.
    destruct (rocksdb.ok (Ref.cstatus c)) eqn:Hok.
    + by apply (move_valid (String.leb target) c).
    + unfold Ref.move in Hvalid. rewrite Hok in Hvalid. simpl in Hvalid.
      rewrite Hok, andb_false_r in Hvalid. discriminate Hvalid.
Qed.

(** ** Batches *)

Section BatchFacts.
Context (h : rocksdb.ColumnFamilyHandle) (k : string).

Lemma batch_last_acc (b : rocksdb.WriteBatch) (acc : option string) :
  foldl (batch_pick h k) acc b =
  match foldl (batch_pick h k) None b with Some v => Some v | None => acc end.
Proof.
  revert acc. induction b as [|e b IH]; intros acc; simpl; [reflexivity|].
  rewrite (IH (batch_pick h k acc e)), (IH (batch_pick h k None e)).
  unfold batch_pick.
  destruct (foldl _ None b); [reflexivity|]. destruct (decide _); reflexivity.
Qed.

Lemma batch_last_lookup (b : rocksdb.WriteBatch) (m : gmap string string) :
  foldl (batch_store h) m b !! k =
  match rocksdb.batch_last b h k with Some v => Some v | None => m !! k end.
Proof.
  change (rocksdb.batch_last b h k) with (foldl (batch_pick h k) None b).
  revert m. induction b as [|e b IH]; intros m; simpl; [reflexivity|].
  rewrite IH, (batch_last_acc b (batch_pick h k None e)).
  destruct (foldl (batch_pick h k) None b); [reflexivity|].
  unfold batch_pick, batch_store.
  destruct (decide (e.1.1 = h ∧ e.1.2 = k)) as [[Hh Hk]|Hne].
  - rewrite decide_True by exact Hh. rewrite Hk. apply lookup_insert_eq.
  - destruct (decide (e.1.1 = h)) as [Hh|]; [|reflexivity].
    apply lookup_insert_ne. intros Hk. apply Hne. auto.
Qed.

Lemma batch_last_handle (b : rocksdb.WriteBatch) (v : string) :
  rocksdb.batch_last b h k = Some v → ∃ e, e ∈ b ∧ e.1.1 = h.
Proof.
  change (rocksdb.batch_last b h k) with (foldl (batch_pick h k) None b).
  induction b as [|e b IH] using rev_ind; simpl; [discriminate|].
  rewrite foldl_app. simpl. unfold batch_pick at 1.
  destruct (decide (e.1.1 = h ∧ e.1.2 = k)) as [[Hh _]|_].
  - intros _. exists e. split; [apply elem_of_app; right; apply list_elem_of_singleton; reflexivity|exact Hh].
  - intros Hlast. destruct (IH Hlast) as (e' & Hin & Hh).
    exists e'. split; [apply elem_of_app; left; exact Hin|exact Hh].
Qed.

Lemma apply_batch_lookup (b : rocksdb.WriteBatch) (d : gmap nat (gmap string string)) :
  Ref.apply_batch b d !! h = (λ m, foldl (batch_store h) m b) <$> (d !! h).
Proof.
  unfold Ref.apply_batch.
  revert d. induction b as [|e b IH]; intros d; simpl.
  - destruct (d !! h); reflexivity.
  - rewrite IH.
    assert (alter <[e.1.2:=e.2]> e.1.1 d !! h = (λ m, batch_store h m e) <$> d !! h)
      as ->.
    { unfold batch_store. destruct (decide (e.1.1 = h)) as [Heq|Hne].
      - rewrite <- Heq. rewrite lookup_alter_eq. reflexivity.
      - rewrite lookup_alter_ne by exact Hne. destruct (d !! h); reflexivity. }
    destruct (d !! h); reflexivity.
Qed.

End BatchFacts.

(** A write on the reference engine either fails and leaves the stored data
    alone, or succeeds on an open database, all handles of the batch being
    known, and stores the batch. *)
Lemma ref_Write_cases (db : rocksdb.DBptr) (o : rocksdb.WriteOptions)
    (b : rocksdb.WriteBatch) (w : Ref.State) :
  (rocksdb.ok (Ref.ref_Write db o b w).1.1 = false ∧
   (Ref.ref_Write db o b w).1.2 = b ∧
   Ref.opened (Ref.ref_Write db o b w).2 = Ref.opened w ∧
   Ref.data (Ref.ref_Write db o b w).2 = Ref.data w) ∨
  (Ref.ref_Write db o b w =
     (rocksdb.Status_OK, b, Ref.with_data (Ref.apply_batch b (Ref.data w)) w) ∧
   is_Some (Ref.opened w !! db) ∧
   Ref.known_handles b (Ref.data w) = true).
Proof.
  unfold Ref.ref_Write, Ref.pending.
  destruct (Ref.opened w !! db) as [[p [|]]|] eqn:Hdb; simpl; auto.
  destruct (Ref.fault w) as [s|].
  - destruct (rocksdb.ok s) eqn:Hs; simpl; [|auto].
    destruct (Ref.known_handles b (Ref.data w)); simpl; [right; eauto|auto].
  - destruct (Ref.known_handles b (Ref.data w)); simpl; [right; eauto|auto].
Qed.

Global Instance Ref_write_atomic : rocksdb.AtomicWrite Ref.State Ref.Cursor.
Proof.
  split; simpl.
  - intros db o b w.
    destruct (ref_Write_cases db o b w) as [(_ & Hb & _)|(-> & _)]; [exact Hb|reflexivity].
  - intros db o b w Hfail ro h k.
    destruct (ref_Write_cases db o b w) as [(_ & _ & Hop & Hdata)|(Hok & _)].
    + unfold Ref.ref_Get. rewrite Hop, Hdata. reflexivity.
    + rewrite Hok in Hfail. discriminate Hfail.
  - intros db o b w Hok ro h k.
    destruct (ref_Write_cases db o b w) as [(Hfail & _)|(Heq & [op Hop] & Hknown)].
    { rewrite Hfail in Hok. discriminate Hok. }
    rewrite Heq. unfold Ref.ref_Get. simpl. rewrite Hop, apply_batch_lookup.
    destruct (rocksdb.batch_last b h k) as [v|] eqn:Hlast.
    + destruct (batch_last_handle h k b v Hlast) as (e & Hin & Hh).
      unfold Ref.known_handles in Hknown. rewrite forallb_forall in Hknown.
      apply list_elem_of_In, Hknown, bool_decide_eq_true in Hin.
      rewrite Hh in Hin. destruct Hin as [m Hm]. rewrite Hm. simpl.
      rewrite (batch_last_lookup h k b m), Hlast. auto.
    + destruct (Ref.data w !! h) as [m|]; simpl; [|reflexivity].
      rewrite (batch_last_lookup h k b m), Hlast. reflexivity.
Qed.

(** ** WriteBatch *)

Section CommitFacts.
Context {W C : Type} `{!rocksdb.Engine W C} `{!rocksdb.AtomicWrite W C}.

(** C2 (as amended): [commit] hands the whole batch to the engine in one
    [Write] call and returns the engine's status, mapped.  If that status is
    OK every staged Put is readable afterwards and no other read has changed;
    if it is an error no read has changed.  Either way the batch still holds
    what was staged, and a second [commit] hands the engine the same
    complete batch again. *)
Theorem commit_atomic_batch_retained (b : WriteBatch.t) (σ : World W) :
  let batch_write_options_ := WriteBatch.batch_write_options_ b in
  let r := WriteBatch.commit b σ in
  let engine_status :=
    (rocksdb.DB_Write (WriteBatch.db_ b) batch_write_options_ (WriteBatch.wb_ b)
       (engine σ)).1.1 in
  let read ro h k (τ : World W) := rocksdb.DB_Get (WriteBatch.db_ b) ro h k (engine τ) in
  (result r).1 = convertStatus engine_status ∧
  calls (final r) =
    calls σ ++ [rocksdb.CallWrite (WriteBatch.db_ b) batch_write_options_
                  (WriteBatch.wb_ b)] ∧
  (∀ ro h k,
     if Status.ok (result r).1 then
       match rocksdb.batch_last (WriteBatch.wb_ b) h k with
       | Some v =>
           rocksdb.ok (read ro h k (final r)).1 = true ∧ (read ro h k (final r)).2 = v
       | None => read ro h k (final r) = read ro h k σ
       end
     else read ro h k (final r) = read ro h k σ) ∧
  (result r).2 = b ∧
  calls (final (WriteBatch.commit (result r).2 (final r))) =
    calls (final r) ++ [rocksdb.CallWrite (WriteBatch.db_ b) batch_write_options_
                          (WriteBatch.wb_ b)].
Proof.
  intros batch_write_options_ r engine_status read.
  subst batch_write_options_ r engine_status read.
  assert (∀ b' τ, calls (final (WriteBatch.commit b' τ)) =
            calls τ ++ [rocksdb.CallWrite (WriteBatch.db_ b')
                          (WriteBatch.batch_write_options_ b')
                          (WriteBatch.wb_ b')]) as Hlog.
  { intros b' τ. unfold WriteBatch.commit, final, mbind, M_bind, engine_call.
    destruct (rocksdb.DB_Write _ _ _ _) as [[s wb] w']. reflexivity. }
  pose proof (rocksdb.write_keeps_batch (WriteBatch.db_ b)
                (WriteBatch.batch_write_options_ b)
                (WriteBatch.wb_ b) (engine σ)) as Hkeep.
  pose proof (rocksdb.write_failed_invisible (WriteBatch.db_ b)
                (WriteBatch.batch_write_options_ b)
                (WriteBatch.wb_ b) (engine σ)) as Hfail.
  pose proof (rocksdb.write_ok_visible (WriteBatch.db_ b)
                (WriteBatch.batch_write_options_ b)
                (WriteBatch.wb_ b) (engine σ)) as Hvis.
  assert ((result (WriteBatch.commit b σ)).2 = b) as Hsame.
  { unfold WriteBatch.commit, result, mbind, M_bind, engine_call.
    destruct (rocksdb.DB_Write _ _ _ _) as [[s wb] w']. simpl in *.
    subst wb. destruct b; reflexivity. }
  split; [|split; [apply Hlog|split; [|split; [exact Hsame|]]]].
  - unfold WriteBatch.commit, result, mbind, M_bind, engine_call.
    destruct (rocksdb.DB_Write _ _ _ _) as [[s wb] w']. reflexivity.
  - intros ro h k.
    unfold WriteBatch.commit, result, final, mbind, M_bind, engine_call.
    destruct (rocksdb.DB_Write _ _ _ _) as [[s wb] w']. simpl in *.
    rewrite convertStatus_ok.
    destruct (rocksdb.ok s) eqn:Hs.
    + apply (Hvis eq_refl).
    + apply (Hfail eq_refl).
  - rewrite Hsame. apply Hlog.
Qed.

End CommitFacts.

(** ** Collections, Initialize and Open *)

Lemma creations_app (name : string) (l1 l2 : list rocksdb.Call) :
  creations name (l1 ++ l2) = (creations name l1 + creations name l2)%nat.
Proof. unfold creations. rewrite List.filter_app, length_app. reflexivity. Qed.

Section CollectionFacts.
Context {W C : Type} `{!rocksdb.Iterator C} `{!rocksdb.Engine W C}.

(** [create_collection], case by case. *)
Lemma create_collection_eq (d : DB.t) (name : string) (σ : World W) :
  DB.create_collection d name σ =
  match DB.coll2handle_ d !! name with
  | Some _ => ((Status.Exists2 "column family already exists" name, d), σ)
  | None =>
      let a := ApplyColumnFamilyOptions (DB.mode_ d)
                 rocksdb.ColumnFamilyOptions_default σ in
      let e := rocksdb.DB_CreateColumnFamily (DB.db_ d) a.1 name (engine σ) in
      let σ' := mkWorld (host a.2) (memoized a.2) (ram_queries a.2) e.2
                  (calls σ ++ [rocksdb.CallCreateColumnFamily (DB.db_ d) a.1 name]) in
      if rocksdb.ok e.1.1 then
        ((Status.OK,
          DB.mk (DB.db_ d) (<[name := e.1.2]> (DB.coll2handle_ d)) (DB.mode_ d)
                (DB.write_options_ d) (DB.batch_write_options_ d)), σ')
      else ((convertStatus e.1.1, d), σ')
  end.
Proof.
  unfold DB.create_collection.
  destruct (DB.coll2handle_ d !! name) as [h|] eqn:Hlook.
  { rewrite decide_True by eauto. reflexivity. }
  rewrite decide_False by (intros [? ?]; discriminate).
  unfold mbind, M_bind.
  destruct (ApplyColumnFamilyOptions_frame (DB.mode_ d)
              rocksdb.ColumnFamilyOptions_default σ) as (_ & He & Hc).
  unfold final in He, Hc.
  destruct (ApplyColumnFamilyOptions (DB.mode_ d) _ σ) as [colopts σ1]; simpl in *.
  unfold engine_call. rewrite He, Hc.
  destruct (rocksdb.DB_CreateColumnFamily (DB.db_ d) colopts name (engine σ))
    as [[s h] w']; simpl.
  destruct (rocksdb.ok s); reflexivity.
Qed.

(** C9 (as amended): [create_collection] on a name that is in the mapping
    returns Exists and changes nothing: not the mapping, not the engine, not
    the call log.  On a name that is not, it makes exactly one
    CreateColumnFamily call, with the options [ApplyColumnFamilyOptions]
    gives for the mode; when the engine reports success it records the new
    handle under the name and returns OK, and when the engine reports an error
    it returns that error, mapped, and leaves the mapping as it was.  After a
    call that returned OK, a second call with the same name returns Exists
    and changes nothing, so the two calls together created one column family
    of that name. *)
Theorem create_collection_contract (d : DB.t) (name : string) (σ : World W) :
  let r := DB.create_collection d name σ in
  let colopts :=
    result (ApplyColumnFamilyOptions (DB.mode_ d) rocksdb.ColumnFamilyOptions_default σ) in
  let answer := rocksdb.DB_CreateColumnFamily (DB.db_ d) colopts name (engine σ) in
  let r2 := DB.create_collection (result r).2 name (final r) in
  match DB.coll2handle_ d !! name with
  | Some _ => r = ((Status.Exists2 "column family already exists" name, d), σ)
  | None =>
      calls (final r) =
        calls σ ++ [rocksdb.CallCreateColumnFamily (DB.db_ d) colopts name] ∧
      engine (final r) = answer.2 ∧
      if rocksdb.ok answer.1.1 then
        result r =
          (Status.OK,
           DB.mk (DB.db_ d) (<[name := answer.1.2]> (DB.coll2handle_ d)) (DB.mode_ d)
                 (DB.write_options_ d) (DB.batch_write_options_ d))
      else result r = (convertStatus answer.1.1, d)
  end ∧
  (Status.ok (result r).1 = true →
     r2 = ((Status.Exists2 "column family already exists" name, (result r).2), final r) ∧
     DB.coll2handle_ d !! name = None ∧
     is_Some (DB.coll2handle_ (result r2).2 !! name) ∧
     creations name (calls (final r2)) = S (creations name (calls σ))).
Proof.
  intros r colopts answer r2. subst r2.
  assert (r = DB.create_collection d name σ) as Hr by reflexivity.
  rewrite create_collection_eq in Hr. clearbody r.
  destruct (DB.coll2handle_ d !! name) as [h|] eqn:Hlook.
  { subst r. split; [reflexivity|]. intros Hok. discriminate Hok. }
  subst colopts answer. unfold result, final in *. cbv zeta in Hr.
  destruct (rocksdb.ok _) eqn:Hs; subst r; simpl.
  - split; [repeat split; reflexivity|]. intros _.
    rewrite create_collection_eq. simpl. rewrite lookup_insert_eq. simpl.
    split; [reflexivity|]. split; [reflexivity|].
    split; [rewrite lookup_insert_eq; eauto|].
    rewrite creations_app. unfold creations at 2. simpl.
    rewrite bool_decide_eq_true_2 by reflexivity. simpl. lia.
  - split; [repeat split; reflexivity|]. rewrite convertStatus_ok, Hs. discriminate.
Qed.

(** C3 (as amended): [Initialize] opens the engine with create_if_missing
    and error_if_exists set; when the engine refuses, as it does for a path
    that holds a database, the result is the engine's status mapped by
    [convertStatus] and no [DB], and its kind is never Exists.  [Open]
    lists the column families with create_if_missing cleared; when that
    fails, as it does for a path that holds no database, the result is the
    engine's status mapped by [convertStatus] and no [DB], and its kind is
    NotFound exactly when the engine's code is kNotFound; when the following
    open fails the result is again the mapped status. *)
Theorem Initialize_Open_failure_kinds (path : string) (mode : OpenMode.t) (σ : World W) :
  let ri := Initialize path σ in
  let ro := Open path mode σ in
  (∃ o, rocksdb.create_if_missing o = true ∧ rocksdb.error_if_exists o = true ∧
     let answer := rocksdb.DB_Open o path (engine σ) in
     if rocksdb.ok answer.1.1 then
       result ri = (Status.OK, Some (DB.new answer.1.2 ∅ OpenMode.NORMAL))
     else result ri = (convertStatus answer.1.1, None)) ∧
  Status.code (result ri).1 ≠ StatusCode.EXISTS ∧
  (∃ o, rocksdb.create_if_missing o = false ∧
     let listed := rocksdb.DB_ListColumnFamilies o path (engine σ) in
     if rocksdb.ok listed.1 then
       ∃ cfs, rocksdb.name <$> cfs = listed.2 ∧
         let answer :=
           (if decide (mode = OpenMode.READ_ONLY)
            then rocksdb.DB_OpenForReadOnly o path cfs (engine σ)
            else rocksdb.DB_OpenCF o path cfs (engine σ)) in
         if rocksdb.ok answer.1.1.1 then
           result ro =
             (Status.OK,
              Some (DB.new answer.1.2 (DB.fill_coll2handle listed.2 answer.1.1.2) mode))
         else result ro = (convertStatus answer.1.1.1, None)
     else
       result ro = (convertStatus listed.1, None) ∧
       (Status.code (result ro).1 = StatusCode.NOT_FOUND ↔
        rocksdb.code listed.1 = rocksdb.kNotFound)).
Proof.
  intros ri ro.
  assert (∃ o, rocksdb.create_if_missing o = true ∧ rocksdb.error_if_exists o = true ∧
     let answer := rocksdb.DB_Open o path (engine σ) in
     if rocksdb.ok answer.1.1 then
       result ri = (Status.OK, Some (DB.new answer.1.2 ∅ OpenMode.NORMAL))
     else result ri = (convertStatus answer.1.1, None)) as Hinit.
  { subst ri. unfold Initialize, DB.Initialize, mbind, M_bind, result.
    destruct (ApplyDBOptions_frame OpenMode.NORMAL rocksdb.Options_default σ)
      as (He & _ & _). unfold final, result in He.
    destruct (ApplyDBOptions OpenMode.NORMAL rocksdb.Options_default σ) as [o σ1];
      simpl in *.
    exists (rocksdb.set_error_if_exists true (rocksdb.set_create_if_missing true o)).
    split; [reflexivity|]. split; [reflexivity|].
    unfold engine_call. rewrite He.
    destruct (rocksdb.DB_Open _ path (engine σ)) as [[s rawdb] w']; simpl.
    destruct (rocksdb.ok s); reflexivity. }
  split; [exact Hinit|]. split.
  { destruct Hinit as (o & _ & _ & Hinit). simpl in Hinit.
    destruct (rocksdb.ok (rocksdb.DB_Open o path (engine σ)).1.1); rewrite Hinit; simpl;
      [discriminate|apply convertStatus_never_Exists]. }
  subst ro. unfold Open, DB.Open, mbind, M_bind, result.
  destruct (ApplyDBOptions_frame mode rocksdb.Options_default σ) as (He & _ & _).
  unfold final, result in He.
  destruct (ApplyDBOptions mode rocksdb.Options_default σ) as [o σ1]; simpl in *.
  exists (rocksdb.set_create_if_missing false o). split; [reflexivity|].
  unfold engine_read, engine_call at 1. rewrite He.
  destruct (rocksdb.DB_ListColumnFamilies _ path (engine σ)) as [s names]; simpl.
  destruct (rocksdb.ok s) eqn:Hs; simpl.
  - match goal with |- context [for_collect names ?body ?τ] =>
      pose proof (descriptors_frame mode names τ) as Hd end.
    simpl in Hd. unfold result, final in Hd.
    destruct (for_collect names _ _) as [cfs σ2]; simpl in *.
    destruct Hd as [Hnames He2].
    exists cfs. split; [exact Hnames|].
    destruct (decide (mode = OpenMode.READ_ONLY));
      unfold engine_call; cbv beta; rewrite He2.
    + destruct (rocksdb.DB_OpenForReadOnly _ path cfs (engine σ))
        as [[[s2 hs] rawdb] w']; simpl.
      destruct (rocksdb.ok s2); reflexivity.
    + destruct (rocksdb.DB_OpenCF _ path cfs (engine σ))
        as [[[s2 hs] rawdb] w']; simpl.
      destruct (rocksdb.ok s2); reflexivity.
  - split; [reflexivity|]. simpl. apply convertStatus_NotFound_iff.
Qed.

End CollectionFacts.

(** ** Runs on the reference engine *)

(** C2, as the claim states it, fails: a [commit] that the engine fails
    leaves both staged Puts in the batch, and a second [commit] applies
    them. *)
Lemma commit_failure_keeps_staged_puts :
  let r1 := WriteBatch.commit Sample.batch
              (Ref.inject_fault (Ref.io_error "disk full") Sample.loaded) in
  let r2 := WriteBatch.commit (result r1).2 (final r1) in
  Status.code (result r1).1 = StatusCode.IO_ERROR ∧
  WriteBatch.wb_ (result r1).2 = [(Sample.coll, "x", "1"); (Sample.coll, "y", "2")] ∧
  (result (DB.get Sample.db1 Sample.coll "x" (final r1))).1 = Status.NotFound ∧
  (result r2).1 = Status.OK ∧
  result (DB.get Sample.db1 Sample.coll "x" (final r2)) = (Status.OK, "1") ∧
  result (DB.get Sample.db1 Sample.coll "y" (final r2)) = (Status.OK, "2").
Proof. vm_compute. repeat split; reflexivity. Qed.

(** Witness for C2 (as amended), on the reference engine. *)
Lemma commit_atomic_batch_retained_witness :
  (result (WriteBatch.commit Sample.batch Sample.loaded)).2 = Sample.batch.
Proof.
  exact (proj1 (proj2 (proj2 (proj2
    (commit_atomic_batch_retained (W := Ref.State) Sample.batch Sample.loaded))))).
Defined.

(** C3, as the claim states it, fails: on the reference engine, which
    answers as RocksDB does, [Initialize] on a path that holds a database
    fails with Invalid, and [Open] on a path that holds none fails with
    IOError. *)
Lemma Initialize_existing_Invalid_Open_missing_IOError :
  is_Some (Ref.disk (engine Sample.closed) !! "/db") ∧
  Status.code (result (Initialize "/db" Sample.closed)).1 = StatusCode.INVALID ∧
  Ref.disk (engine Sample.closed) !! "/nowhere" = None ∧
  Status.code (result (Open "/nowhere" OpenMode.NORMAL Sample.closed)).1 =
    StatusCode.IO_ERROR.
Proof. vm_compute. repeat split; try reflexivity. eexists; reflexivity. Qed.

(** C9, as the claim states it, fails: on a database opened read-only,
    [create_collection] on a name that is not in the mapping returns
    NotImplemented, records nothing and creates no column family. *)
Lemma create_collection_engine_refusal :
  let r := DB.create_collection Sample.db_ro "x" (final Sample.reopened) in
  DB.coll2handle_ Sample.db_ro !! "x" = None ∧
  (result r).1 = Status.NotImplemented ∧
  DB.coll2handle_ (result r).2 !! "x" = None ∧
  Ref.disk (engine (final r)) = Ref.disk (engine (final Sample.reopened)).
Proof. vm_compute. repeat split; reflexivity. Qed.

(** Witness for C9 (as amended): the first call creates "c", the second
    returns Exists. *)
Lemma create_collection_contract_witness :
  Status.ok (result Sample.created).1 = true ∧
  DB.create_collection Sample.db1 "c" (final Sample.created) =
    ((Status.Exists2 "column family already exists" "c", Sample.db1),
     final Sample.created) ∧
  creations "c" (calls (final (DB.create_collection Sample.db1 "c"
                                 (final Sample.created)))) =
    S (creations "c" (calls (final Sample.booted))).
Proof.
  assert (Status.ok (result Sample.created).1 = true) as Hok
    by (vm_compute; reflexivity).
  split; [exact Hok|].
  destruct (proj2 (create_collection_contract (W := Ref.State) Sample.db0 "c"
                     (final Sample.booted)) Hok) as (H2 & _ & _ & Hn).
  split; [exact H2|exact Hn].
Defined.

(** Witness for C7: the broken iterator, the iterator on "b", and the
    iterator on the last key. *)
Lemma Iterator_next_contract_witness :
  Iterator.next Sample.broken =
    (Status.IOError2 "RocksDB kIOError" "IO error: read failed", Sample.broken) ∧
  ((Iterator.next Sample.at_b).1 = Status.OK ∧
   Iterator.key (Iterator.next Sample.at_b).2 = "c" ∧
   Iterator.value (Iterator.next Sample.at_b).2 = "3") ∧
  ((Iterator.next Sample.at_c).1 = Status.OK ∧
   Iterator.valid (Iterator.next Sample.at_c).2 = false).
Proof.
  destruct (Iterator_next_contract Sample.broken) as (Herr & _ & _).
  destruct (Iterator_next_contract Sample.at_b) as (_ & Hadv & _).
  destruct (Iterator_next_contract Sample.at_c) as (_ & _ & Hend).
  split; [|split].
  - destruct Herr as [Herr _]; [vm_compute; reflexivity|].
    rewrite Herr. vm_compute. reflexivity.
  - destruct Hadv as [Hadv _]; [vm_compute; reflexivity ..|].
    rewrite Hadv. vm_compute. repeat split; reflexivity.
  - destruct Hend as (Hs & _ & Hv); [vm_compute; reflexivity ..|].
    split; [exact Hs|exact Hv].
Defined.

(** Witness for C10: an iterator built on a cursor that is not valid, and
    the iterator on the last key advanced past the end. *)
Lemma Iterator_copies_frame_witness :
  (Iterator.key (Iterator.new Sample.no_cursor) = "" ∧
   Iterator.value (Iterator.new Sample.no_cursor) = "") ∧
  ((Iterator.next Sample.at_c).1 = Status.OK ∧
   Iterator.key (Iterator.next Sample.at_c).2 = Iterator.key Sample.at_c ∧
   Iterator.value (Iterator.next Sample.at_c).2 = Iterator.value Sample.at_c) ∧
  (Iterator.key (Iterator.next Sample.broken).2 = Iterator.key Sample.broken ∧
   Iterator.value (Iterator.next Sample.broken).2 = Iterator.value Sample.broken).
Proof.
  destruct (Iterator_copies_frame Sample.no_cursor Sample.at_c) as (Hnew & Hend & _ & _).
  destruct (Iterator_copies_frame Sample.no_cursor Sample.broken) as (_ & _ & Herr & _).
  split; [|split].
  - apply Hnew. vm_compute. reflexivity.
  - apply Hend; vm_compute; reflexivity.
  - apply Herr. vm_compute. reflexivity.
Defined.

(** Witness for C8: keys "c", "a", "b" were put in that order; the iterator
    started at "" stands on "a" and visits a, b, c; the one started at "b"
    visits b, c. *)
Lemma Reader_iterator_contract_witness :
  (StronglySorted rocksdb.key_lt (scan 5 (Sample.iterator_from "b" Sample.loaded)) ∧
   Forall (rocksdb.key_le "b") (scan 5 (Sample.iterator_from "b" Sample.loaded))) ∧
  scan 5 (Sample.iterator_from "b" Sample.loaded) = ["b"; "c"] ∧
  scan 5 (Sample.iterator_from "" Sample.loaded) = ["a"; "b"; "c"].
Proof.
  split; [|split; vm_compute; reflexivity].
  pose proof (Reader_iterator_contract (W := Ref.State) Sample.reader Sample.coll "b"
                Sample.loaded) as H.
  cbv zeta in H.
  destruct (rocksdb.DB_NewIterator (Reader.db_ Sample.reader)
              rocksdb.ReadOptions_default Sample.coll (engine Sample.loaded))
    as [c|] eqn:Hc; [|vm_compute in Hc; discriminate Hc].
  rewrite bool_decide_eq_false_2 in H by discriminate.
  destruct (rocksdb.ok (rocksdb.status (rocksdb.Seek "b" c))) eqn:Hok.
  - destruct H as (Hr & _ & _ & Hscan).
    assert (Sample.iterator_from "b" Sample.loaded = Iterator.new (rocksdb.Seek "b" c))
      as -> by (unfold Sample.iterator_from; rewrite Hr; reflexivity).
    destruct (Hscan 5%nat) as [Hsorted Hge].
    split; [exact Hsorted|apply Hge; discriminate].
  - exfalso. vm_compute in Hc. injection Hc as <-. vm_compute in Hok. discriminate Hok.
Defined.

(** * Further properties *)

(** ** Iterators over their lifetime *)

Section IteratorRuns.
Context {C : Type} `{!rocksdb.Iterator C}.

Lemma next_error_fixpoint (it : Iterator.t C) :
  Status.ok (Iterator.next it).1 = false →
  Iterator.next (Iterator.next it).2 = Iterator.next it.
Proof.
  unfold Iterator.next at 1 3 4.
  destruct (rocksdb.ok (rocksdb.status (Iterator.iter_ it))) eqn:E1; simpl.
  - destruct (rocksdb.ok (rocksdb.status (rocksdb.Next (Iterator.iter_ it)))) eqn:E2; simpl.
    + destruct (rocksdb.Valid (rocksdb.Next (Iterator.iter_ it))); simpl; discriminate.
    + intros _. unfold Iterator.next. simpl. rewrite E2. reflexivity.
  - intros _. unfold Iterator.next. rewrite E1. reflexivity.
Qed.

(** X1: an error is sticky.  Once [next] has returned an error, every
    further [next] returns that same error and leaves the iterator, cursor
    included, as the failed call left it. *)
Theorem Iterator_error_sticky (n : nat) (it : Iterator.t C) :
  Status.ok (Iterator.next it).1 = false →
  retry n (Iterator.next it).2 = (Iterator.next it).2 ∧
  Iterator.next (retry n (Iterator.next it).2) = Iterator.next it.
Proof.
  intros Hbad. pose proof (next_error_fixpoint it Hbad) as Hfix.
  assert (retry n (Iterator.next it).2 = (Iterator.next it).2) as Hsame.
  { induction n as [|n IH]; [reflexivity|].
    unfold retry in *. simpl. rewrite IH, Hfix. reflexivity. }
  rewrite Hsame. auto.
Qed.

Lemma new_coherent (c : C) : coherent (Iterator.new c).
Proof.
  unfold coherent, Iterator.new, Iterator.valid, Iterator.key, Iterator.value.
  destruct (rocksdb.Valid c) eqn:E; simpl; [auto|]. rewrite E. discriminate.
Qed.

Lemma next_ok_coherent (it : Iterator.t C) :
  Status.ok (Iterator.next it).1 = true →
  Iterator.iter_ (Iterator.next it).2 = rocksdb.Next (Iterator.iter_ it) ∧
  coherent (Iterator.next it).2.
Proof.
  unfold Iterator.next, coherent, Iterator.valid, Iterator.key, Iterator.value.
  destruct (rocksdb.ok (rocksdb.status (Iterator.iter_ it))) eqn:E1; simpl.
  - destruct (rocksdb.ok (rocksdb.status (rocksdb.Next (Iterator.iter_ it)))) eqn:E2; simpl.
    + destruct (rocksdb.Valid (rocksdb.Next (Iterator.iter_ it))) eqn:E3; simpl; [auto|].
      intros _. split; [reflexivity|]. rewrite E3. discriminate.
    + rewrite convertStatus_ok, E2. discriminate.
  - rewrite convertStatus_ok, E1. discriminate.
Qed.

(** X2: the buffered entry is the current one.  After construction and any
    number of [next] calls that all returned OK, the cursor has been moved by
    exactly that many [Next] steps and, whenever [valid] holds, [key] and
    [value] return the key and value of the entry the cursor stands on. *)
Theorem Iterator_buffer_coherent (n : nat) (c : C) (it : Iterator.t C) :
  advance n (Iterator.new c) = Some it →
  Iterator.iter_ it = Nat.iter n rocksdb.Next c ∧ coherent it.
Proof.
  assert (∀ (m : nat) (i j : Iterator.t C), coherent i → advance m i = Some j →
            Iterator.iter_ j = Nat.iter m rocksdb.Next (Iterator.iter_ i) ∧ coherent j)
    as Hgen.
  { induction m as [|m IH]; intros i j Hi; simpl.
    - intros [= <-]. auto.
    - destruct (Status.ok (Iterator.next i).1) eqn:Hok; [|discriminate].
      destruct (next_ok_coherent i Hok) as [Hcur Hco]. intros Hadv.
      destruct (IH _ _ Hco Hadv) as [Hj Hcoj]. split; [|exact Hcoj].
      rewrite Hj, Hcur. symmetry. apply Nat.iter_succ_r. }
  intros Hadv. destruct (Hgen n _ _ (new_coherent c) Hadv) as [Hcur Hco].
  split; [|exact Hco]. rewrite Hcur.
  unfold Iterator.new. destruct (rocksdb.Valid c); reflexivity.
Qed.

End IteratorRuns.

(** ** Collections over the life of a [DB] *)

Lemma collection_Some (d : DB.t) (name : string) (h : CollectionHandle) :
  DB.collection d name = (Status.OK, Some h) ↔ DB.coll2handle_ d !! name = Some h.
Proof.
  unfold DB.collection. destruct (DB.coll2handle_ d !! name); split; intros Heq;
    first [ by inversion Heq | by rewrite Heq | discriminate Heq ].
Qed.

Lemma collection_None (d : DB.t) (name : string) :
  DB.collection d name = (Status.NotFound2 "column family does not exist" name, None) ↔
  DB.coll2handle_ d !! name = None.
Proof.
  unfold DB.collection. destruct (DB.coll2handle_ d !! name); split; intros Heq;
    first [ reflexivity | discriminate Heq ].
Qed.

Section CollectionLife.
Context {W C : Type} `{!rocksdb.Iterator C} `{!rocksdb.Engine W C}.

(** X3: [collection] after [create_collection].  When [create_collection]
    returns OK the name was new, [collection] now finds it under the handle
    the engine returned, and every other name resolves as before; when it
    returns an error (Exists or an engine error) the [DB] object is as it
    was. *)
Theorem collection_after_create_collection (d : DB.t) (name : string) (σ : World W) :
  let r := DB.create_collection d name σ in
  let colopts :=
    result (ApplyColumnFamilyOptions (DB.mode_ d) rocksdb.ColumnFamilyOptions_default σ) in
  let handle :=
    (rocksdb.DB_CreateColumnFamily (DB.db_ d) colopts name (engine σ)).1.2 in
  (Status.ok (result r).1 = true →
     DB.collection d name =
       (Status.NotFound2 "column family does not exist" name, None) ∧
     DB.collection (result r).2 name = (Status.OK, Some handle) ∧
     ∀ other, other ≠ name →
       DB.collection (result r).2 other = DB.collection d other) ∧
  (Status.ok (result r).1 = false → (result r).2 = d).
Proof.
  intros r colopts handle.
  assert (r = DB.create_collection d name σ) as Hr by reflexivity.
  rewrite create_collection_eq in Hr. clearbody r.
  destruct (DB.coll2handle_ d !! name) as [h|] eqn:Hlook.
  { subst r. split; [intros Hok; discriminate Hok|reflexivity]. }
  subst colopts handle. unfold result, final in *. cbv zeta in Hr.
  destruct (rocksdb.ok _) eqn:Hs; subst r; simpl.
  - split; [|intros Hbad; discriminate Hbad]. intros _.
    split; [by apply collection_None|].
    split; [apply collection_Some; simpl; apply lookup_insert_eq|].
    intros other Hne. unfold DB.collection. simpl.
    rewrite lookup_insert_ne by congruence. reflexivity.
  - split; [|reflexivity]. rewrite convertStatus_ok, Hs. discriminate.
Qed.

Lemma step_keeps_handles (op : Client.Op) (d : DB.t) (σ : World W)
    (name : string) (h : rocksdb.ColumnFamilyHandle) :
  DB.coll2handle_ d !! name = Some h →
  DB.coll2handle_ (result (Client.step op d σ)) !! name = Some h.
Proof.
  intros Hlook. destruct op as [n|n| | |c k|c k v].
  - exact Hlook.
  - unfold Client.step, result, mbind, M_bind. rewrite create_collection_eq.
    destruct (decide (n = name)) as [->|Hne].
    + rewrite Hlook. exact Hlook.
    + destruct (DB.coll2handle_ d !! n) as [h'|] eqn:Hn; [exact Hlook|].
      cbv zeta. destruct (rocksdb.ok _); simpl; [|exact Hlook].
      rewrite lookup_insert_ne by exact Hne. exact Hlook.
  - exact Hlook.
  - exact Hlook.
  - unfold Client.step, result, mbind, M_bind.
    destruct (DB.get d c k σ) as [r σ1]. exact Hlook.
  - unfold Client.step, result, mbind, M_bind.
    destruct (DB.put d c k v σ) as [r σ1]. exact Hlook.
Qed.

(** X4: a handle, once handed out, stays.  Whatever member calls follow
    (lookups, creations of any names, reads, writes), a name that
    [collection] resolved keeps resolving to the same handle: no call removes
    a collection from the mapping or rebinds its name. *)
Theorem collection_handles_stable (ops : list Client.Op) (d : DB.t) (σ : World W)
    (name : string) (h : CollectionHandle) :
  DB.collection d name = (Status.OK, Some h) →
  DB.collection (result (Client.run ops d σ)) name = (Status.OK, Some h).
Proof.
  rewrite !collection_Some.
  revert d σ. induction ops as [|op ops IH]; intros d σ Hlook; simpl; [exact Hlook|].
  unfold result, mbind, M_bind.
  pose proof (step_keeps_handles op d σ name h Hlook) as Hstep. unfold result in Hstep.
  destruct (Client.step op d σ) as [d1 σ1]; simpl in *.
  apply (IH d1 σ1 Hstep).
Qed.

End CollectionLife.

(** ** The mapping [Open] builds *)

Lemma foldl_insert_list_to_map (l : list (string * rocksdb.ColumnFamilyHandle))
    (m : gmap string rocksdb.ColumnFamilyHandle) :
  NoDup l.*1 →
  foldl (λ m p, <[p.1 := p.2]> m) m l = list_to_map l ∪ m.
Proof.
  revert m. induction l as [|[n h] l IH]; intros m Hnd.
  - simpl. by rewrite (left_id_L ∅ (∪)).
  - rewrite fmap_cons in Hnd. apply NoDup_cons in Hnd as [Hn Hnd].
    cbn [foldl list_to_map foldr fst snd]. rewrite (IH _ Hnd).
    rewrite <- insert_union_l. symmetry. apply insert_union_r.
    by apply not_elem_of_list_to_map_1.
Qed.

Lemma fill_coll2handle_list_to_map (names : list string)
    (hs : list rocksdb.ColumnFamilyHandle) :
  NoDup names → length names = length hs →
  DB.fill_coll2handle names hs = list_to_map (zip names hs).
Proof.
  intros Hnd Hlen. unfold DB.fill_coll2handle.
  rewrite foldl_insert_list_to_map.
  - by rewrite (right_id_L ∅ (∪)).
  - rewrite fst_zip by lia. exact Hnd.
Qed.

(** X5: the mapping [Open] builds from the engine's answers.  For distinct
    listed names and one handle per name, [collection] resolves the i-th name
    to the i-th handle and no other name, and the handles the destructor
    walks are exactly the handles the engine returned, each once. *)
Theorem Open_mapping_matches_engine_handles (names : list string)
    (hs : list rocksdb.ColumnFamilyHandle) (rawdb : rocksdb.DBptr) (mode : OpenMode.t) :
  NoDup names → length names = length hs →
  let d := DB.new rawdb (DB.fill_coll2handle names hs) mode in
  (∀ i name, names !! i = Some name →
     ∃ h, hs !! i = Some h ∧ DB.collection d name = (Status.OK, Some h)) ∧
  (∀ name, name ∉ names →
     DB.collection d name =
       (Status.NotFound2 "column family does not exist" name, None)) ∧
  handles_in_order d ≡ₚ hs.
Proof.
  intros Hnd Hlen d.
  assert (DB.coll2handle_ d = list_to_map (zip names hs)) as Hmap.
  { subst d. rewrite (proj1 (proj2 (new_db_ _ _ _))).
    by apply fill_coll2handle_list_to_map. }
  assert (NoDup (zip names hs).*1) as Hnd' by (rewrite fst_zip by lia; exact Hnd).
  split; [|split].
  - intros i name Hi.
    destruct (lookup_lt_is_Some_2 hs i) as [h Hh].
    { rewrite <- Hlen. by eapply lookup_lt_Some. }
    exists h. split; [exact Hh|]. apply collection_Some. rewrite Hmap.
    apply elem_of_list_to_map; [exact Hnd'|].
    apply list_elem_of_lookup. exists i. apply lookup_zip_Some. auto.
  - intros name Hname. apply collection_None. rewrite Hmap.
    apply not_elem_of_list_to_map_1. rewrite fst_zip by lia. exact Hname.
  - rewrite handles_in_order_perm, Hmap.
    rewrite (map_to_list_to_map _ Hnd'). rewrite snd_zip by lia. reflexivity.
Qed.

(** ** Tuning *)

Section Tuning.
Context {W : Type}.

(** What [ApplyDBOptions] leaves in the world: the host, the engine state, and
    a log grown by the two thread-pool calls. *)
Lemma ApplyDBOptions_log (mode : OpenMode.t) (o : rocksdb.Options) (σ : World W) :
  host (final (ApplyDBOptions mode o σ)) = host σ ∧
  engine (final (ApplyDBOptions mode o σ)) = engine σ ∧
  calls (final (ApplyDBOptions mode o σ)) = calls σ ++ thread_pool_calls (host σ).
Proof.
  unfold ApplyDBOptions, std_thread_hardware_concurrency, mbind, M_bind, final,
    engine_do, engine_call, thread_pool_calls.
  destruct (ApplyColumnFamilyOptions_frame mode (rocksdb.cf o) σ) as (Hh & He & Hc).
  unfold final in Hh, He, Hc.
  destruct (ApplyColumnFamilyOptions mode (rocksdb.cf o) σ) as [cfo σ1]; simpl in *.
  destruct (decide (mode = OpenMode.BULK_LOAD)); simpl;
    rewrite Hh, Hc, <- app_assoc; auto.
Qed.

(** X6: the background thread pools.  Whatever the hardware concurrency the
    host reports, [ApplyDBOptions] asks for at most 16 compaction threads and
    at most 4 flush threads, never more of either than the host reports (so
    none at all on a host that reports 0) and never more flush than
    compaction threads, and the two [SetBackgroundThreads] calls it makes
    carry exactly the two numbers it stores in the options. *)
Theorem ApplyDBOptions_thread_pools (mode : OpenMode.t) (o : rocksdb.Options)
    (σ : World W) :
  let r := ApplyDBOptions mode o σ in
  let hc := hardware_concurrency (host σ) in
  ∃ compactions flushes : Z,
    rocksdb.max_background_compactions (result r) = Some compactions ∧
    rocksdb.max_background_flushes (result r) = Some flushes ∧
    compactions ≤ 16 ∧ flushes ≤ 4 ∧ flushes ≤ compactions ∧ compactions ≤ hc ∧
    (hc ≤ 4 → compactions = hc ∧ flushes = hc) ∧
    (16 ≤ hc → compactions = 16 ∧ flushes = 4) ∧
    calls (final r) =
      calls σ ++ [rocksdb.CallSetBackgroundThreads compactions rocksdb.LOW;
                  rocksdb.CallSetBackgroundThreads flushes rocksdb.HIGH].
Proof.
  intros r hc. subst r hc.
  destruct (ApplyDBOptions_log mode o σ) as (_ & _ & Hc). rewrite Hc. clear Hc.
  unfold ApplyDBOptions, std_thread_hardware_concurrency, mbind, M_bind, result,
    engine_do, engine_call, thread_pool_calls.
  destruct (ApplyColumnFamilyOptions_frame mode (rocksdb.cf o) σ) as (Hh & _ & _).
  unfold final in Hh.
  destruct (ApplyColumnFamilyOptions mode (rocksdb.cf o) σ) as [cfo σ1]; simpl in *.
  rewrite Hh.
  exists (CInt.unsigned_min (hardware_concurrency (host σ)) 16),
         (CInt.unsigned_min (hardware_concurrency (host σ)) 4).
  split; [destruct (decide (mode = OpenMode.BULK_LOAD)); reflexivity|].
  split; [destruct (decide (mode = OpenMode.BULK_LOAD)); reflexivity|].
  unfold CInt.unsigned_min.
  destruct (Z.ltb_spec (hardware_concurrency (host σ)) 16),
           (Z.ltb_spec (hardware_concurrency (host σ)) 4);
    repeat split; try lia; reflexivity.
Qed.

(** X7: what the three modes share.  NORMAL and READ_ONLY are tuned
    identically, column family by column family and database-wide; and the
    level-compaction budget, the level count, the compression settings and
    the table factory (format, block size, block cache) that BULK_LOAD gets
    are the ones NORMAL gets. *)
Theorem tuning_shared_between_modes (cfo : rocksdb.ColumnFamilyOptions)
    (o : rocksdb.Options) (σ : World W) :
  let normal := result (ApplyColumnFamilyOptions OpenMode.NORMAL cfo σ) in
  let bulk := result (ApplyColumnFamilyOptions OpenMode.BULK_LOAD cfo σ) in
  ApplyColumnFamilyOptions OpenMode.READ_ONLY cfo σ =
    ApplyColumnFamilyOptions OpenMode.NORMAL cfo σ ∧
  ApplyDBOptions OpenMode.READ_ONLY o σ = ApplyDBOptions OpenMode.NORMAL o σ ∧
  rocksdb.level_style_memtable_budget bulk = rocksdb.level_style_memtable_budget normal ∧
  rocksdb.num_levels bulk = rocksdb.num_levels normal ∧
  rocksdb.compression_per_level bulk = rocksdb.compression_per_level normal ∧
  rocksdb.compression bulk = rocksdb.compression normal ∧
  rocksdb.table_factory bulk = rocksdb.table_factory normal ∧
  rocksdb.memtable_factory bulk = rocksdb.VectorRep ∧
  rocksdb.memtable_factory normal = rocksdb.memtable_factory cfo.
Proof.
  intros normal bulk. subst normal bulk.
  split; [reflexivity|]. split; [reflexivity|].
  unfold ApplyColumnFamilyOptions, mbind, M_bind, result.
  destruct (totalRAM σ) as [ram σ1]; simpl.
  destruct (totalRAM σ1) as [ram' σ2]; simpl. repeat split; reflexivity.
Qed.

(** ** Physical memory *)

Lemma ApplyColumnFamilyOptions_cached (mode : OpenMode.t)
    (o : rocksdb.ColumnFamilyOptions) (σ : World W) :
  memoized σ ≠ 0 →
  final (ApplyColumnFamilyOptions mode o σ) = σ ∧
  rocksdb.table_factory (result (ApplyColumnFamilyOptions mode o σ)) =
    Some (rocksdb.mkBBTO 2 65536 (memoized σ / 4)).
Proof.
  intros Hm. unfold ApplyColumnFamilyOptions, mbind, M_bind, final, result.
  rewrite (totalRAM_memoized σ Hm); simpl.
  destruct (decide (mode = OpenMode.BULK_LOAD)); simpl; [|auto].
  rewrite (totalRAM_memoized σ Hm); simpl. auto.
Qed.

End Tuning.

Section MemoryOverCalls.
Context {W C : Type} `{!rocksdb.Iterator C} `{!rocksdb.Engine W C}.

Lemma step_keeps_memory (op : Client.Op) (d : DB.t) (σ : World W) :
  memoized σ ≠ 0 →
  memoized (final (Client.step op d σ)) = memoized σ ∧
  ram_queries (final (Client.step op d σ)) = ram_queries σ.
Proof.
  intros Hm. destruct op as [n|n| | |c k|c k v]; try (split; reflexivity).
  - unfold Client.step, final, mbind, M_bind. rewrite create_collection_eq.
    destruct (ApplyColumnFamilyOptions_cached (DB.mode_ d)
                rocksdb.ColumnFamilyOptions_default σ Hm) as [Hfin _].
    unfold final in Hfin.
    destruct (DB.coll2handle_ d !! n); [split; reflexivity|].
    cbv zeta. rewrite Hfin. destruct (rocksdb.ok _); split; reflexivity.
  - unfold Client.step, DB.get, final, mbind, M_bind, engine_read, engine_call.
    destruct (rocksdb.DB_Get _ _ _ _ _) as [s v]. split; reflexivity.
  - unfold Client.step, DB.put, final, mbind, M_bind, engine_call.
    destruct (rocksdb.DB_Put _ _ _ _ _ _) as [s w']. split; reflexivity.
Qed.

Lemma run_keeps_memory (ops : list Client.Op) (d : DB.t) (σ : World W) :
  memoized σ ≠ 0 →
  memoized (final (Client.run ops d σ)) = memoized σ ∧
  ram_queries (final (Client.run ops d σ)) = ram_queries σ.
Proof.
  revert d σ. induction ops as [|op ops IH]; intros d σ Hm; [split; reflexivity|].
  simpl. unfold final, mbind, M_bind.
  destruct (step_keeps_memory op d σ Hm) as [Hm1 Hq1]. unfold final in Hm1, Hq1.
  destruct (Client.step op d σ) as [d1 σ1]; simpl in *.
  destruct (IH d1 σ1) as [Hm2 Hq2]; [congruence|]. unfold final in Hm2, Hq2.
  split; congruence.
Qed.

(** X8: physical memory is queried once when the query gives a non-zero
    size.  In a process whose static is still zero and whose host reports a
    page count and page size with a non-zero product (as [size_t]), the first
    [ApplyColumnFamilyOptions] queries once and stores the product, sizing the
    block cache at a quarter of it; after that no sequence of member calls on
    a [DB] queries again or changes the stored size, and every later
    [ApplyColumnFamilyOptions] sizes the block cache from the stored size
    without touching the process state. *)
Theorem physical_memory_queried_once (mode mode' : OpenMode.t)
    (o o' : rocksdb.ColumnFamilyOptions) (ops : list Client.Op) (d : DB.t)
    (σ : World W) :
  let ram :=
    CInt.size_t_mul (CInt.to_size_t (sc_phys_pages (host σ)))
                    (CInt.to_size_t (sc_pagesize (host σ))) in
  let first := ApplyColumnFamilyOptions mode o σ in
  let later := final (Client.run ops d (final first)) in
  memoized σ = 0 → ram ≠ 0 →
  ram_queries (final first) = S (ram_queries σ) ∧
  memoized (final first) = ram ∧
  rocksdb.table_factory (result first) = Some (rocksdb.mkBBTO 2 65536 (ram / 4)) ∧
  ram_queries later = S (ram_queries σ) ∧
  memoized later = ram ∧
  final (ApplyColumnFamilyOptions mode' o' later) = later ∧
  rocksdb.table_factory (result (ApplyColumnFamilyOptions mode' o' later)) =
    Some (rocksdb.mkBBTO 2 65536 (ram / 4)).
Proof.
  intros ram first later Hzero Hram.
  assert (totalRAM σ =
          (ram, mkWorld (host σ) ram (S (ram_queries σ)) (engine σ) (calls σ))) as Hfirst.
  { unfold totalRAM. rewrite Hzero. simpl. fold ram.
    destruct (ram =? 0) eqn:E; [apply Z.eqb_eq in E; contradiction|reflexivity]. }
  assert (final first = mkWorld (host σ) ram (S (ram_queries σ)) (engine σ) (calls σ) ∧
          rocksdb.table_factory (result first) = Some (rocksdb.mkBBTO 2 65536 (ram / 4)))
    as [Hfin Htf].
  { subst first. unfold ApplyColumnFamilyOptions, mbind, M_bind, final, result.
    rewrite Hfirst. simpl.
    destruct (decide (mode = OpenMode.BULK_LOAD)); simpl; [|auto].
    rewrite totalRAM_memoized by exact Hram. simpl. auto. }
  assert (memoized (final first) ≠ 0) as Hcached by (rewrite Hfin; exact Hram).
  destruct (run_keeps_memory ops d (final first) Hcached) as [Hm Hq]. fold later in Hm, Hq.
  assert (memoized later ≠ 0) as Hcached' by congruence.
  destruct (ApplyColumnFamilyOptions_cached mode' o' later Hcached') as [Hfin' Htf'].
  rewrite Hfin in Hm, Hq. simpl in Hm, Hq.
  repeat split; try assumption; try (rewrite Hfin; reflexivity).
  rewrite Htf', Hm. reflexivity.
Qed.

End MemoryOverCalls.

Section Descriptors.
Context {W : Type}.

(** On one host the size [totalRAM] returns does not depend on how often it
    was asked before: in a world reached from [σ] by calls that only ever
    stored what [totalRAM] returned, it returns what it returns in [σ]. *)
Lemma totalRAM_result_stable (σ τ : World W) :
  host τ = host σ →
  memoized τ = memoized σ ∨ memoized τ = result (totalRAM σ) →
  result (totalRAM τ) = result (totalRAM σ) ∧
  host (final (totalRAM τ)) = host σ ∧
  (memoized (final (totalRAM τ)) = memoized σ ∨
   memoized (final (totalRAM τ)) = result (totalRAM σ)).
Proof.
  intros Hh Hm. unfold totalRAM, result, final in *. rewrite Hh.
  destruct (memoized σ =? 0) eqn:Eσ; simpl in *.
  - apply Z.eqb_eq in Eσ.
    destruct (memoized τ =? 0) eqn:Eτ; simpl; [auto|].
    apply Z.eqb_neq in Eτ. destruct Hm as [Hm|Hm]; [congruence|].
    rewrite Hm. auto.
  - assert (memoized τ = memoized σ) as Hsame by (destruct Hm; assumption).
    rewrite Hsame, Eσ. simpl. auto.
Qed.

Lemma ApplyColumnFamilyOptions_result_stable (mode : OpenMode.t)
    (o : rocksdb.ColumnFamilyOptions) (σ τ : World W) :
  host τ = host σ →
  memoized τ = memoized σ ∨ memoized τ = result (totalRAM σ) →
  result (ApplyColumnFamilyOptions mode o τ) =
    result (ApplyColumnFamilyOptions mode o σ) ∧
  host (final (ApplyColumnFamilyOptions mode o τ)) = host σ ∧
  (memoized (final (ApplyColumnFamilyOptions mode o τ)) = memoized σ ∨
   memoized (final (ApplyColumnFamilyOptions mode o τ)) = result (totalRAM σ)).
Proof.
  intros Hh Hm.
  destruct (totalRAM_result_stable σ τ Hh Hm) as (Hr1 & Hh1 & Hm1).
  destruct (totalRAM_result_stable σ σ eq_refl (or_introl eq_refl)) as (_ & Hh2 & Hm2).
  unfold ApplyColumnFamilyOptions, mbind, M_bind, result, final in *.
  destruct (totalRAM τ) as [ram τ1] eqn:Eτ.
  destruct (totalRAM σ) as [ram0 σ1] eqn:Eσ. simpl in *. subst ram.
  destruct (decide (mode = OpenMode.BULK_LOAD)); simpl; [|auto].
  assert (fst (totalRAM σ) = ram0) as Hfst by (rewrite Eσ; reflexivity).
  pose proof (totalRAM_result_stable σ τ1 Hh1) as Hτ1.
  pose proof (totalRAM_result_stable σ σ1 Hh2) as Hσ1.
  unfold result, final in Hτ1, Hσ1. rewrite Hfst in Hτ1, Hσ1.
  specialize (Hτ1 Hm1). specialize (Hσ1 Hm2).
  destruct (totalRAM τ1) as [ram1 τ2]. destruct (totalRAM σ1) as [ram2 σ2].
  simpl in *. destruct Hτ1 as (-> & ? & ?), Hσ1 as (-> & _ & _). auto.
Qed.

(** [ApplyDBOptions] stores no size other than what [totalRAM] returned. *)
Lemma ApplyDBOptions_memory (mode : OpenMode.t) (o : rocksdb.Options) (σ : World W) :
  host (final (ApplyDBOptions mode o σ)) = host σ ∧
  (memoized (final (ApplyDBOptions mode o σ)) = memoized σ ∨
   memoized (final (ApplyDBOptions mode o σ)) = result (totalRAM σ)).
Proof.
  destruct (ApplyColumnFamilyOptions_result_stable mode (rocksdb.cf o) σ σ eq_refl
              (or_introl eq_refl)) as (_ & Hh & Hm).
  unfold ApplyDBOptions, std_thread_hardware_concurrency, mbind, M_bind, final,
    engine_do, engine_call in *.
  destruct (ApplyColumnFamilyOptions mode (rocksdb.cf o) σ) as [cfo σ1]; simpl in *.
  destruct (decide (mode = OpenMode.BULK_LOAD)); simpl; auto.
Qed.

(** The descriptors [Open] builds: one per name, in order, all with the
    column-family options [ApplyColumnFamilyOptions] gives for the mode;
    building them makes no engine call. *)
Lemma descriptors_closed_form (mode : OpenMode.t) (names : list string)
    (σ τ : World W) :
  host τ = host σ →
  memoized τ = memoized σ ∨ memoized τ = result (totalRAM σ) →
  let r := for_collect names (λ nm,
             colopts ← ApplyColumnFamilyOptions mode rocksdb.ColumnFamilyOptions_default;
             mret (rocksdb.mkCFD nm colopts)) τ in
  result r =
    (λ nm, rocksdb.mkCFD nm
             (result (ApplyColumnFamilyOptions mode
                        rocksdb.ColumnFamilyOptions_default σ))) <$> names ∧
  engine (final r) = engine τ ∧ calls (final r) = calls τ.
Proof.
  revert τ. induction names as [|nm names IH]; intros τ Hh Hm; simpl; [auto|].
  unfold mbind, M_bind, result, final.
  destruct (ApplyColumnFamilyOptions_result_stable mode
              rocksdb.ColumnFamilyOptions_default σ τ Hh Hm) as (Hr & Hh1 & Hm1).
  destruct (ApplyColumnFamilyOptions_frame mode rocksdb.ColumnFamilyOptions_default τ)
    as (_ & He & Hc).
  unfold result, final in Hr, Hh1, Hm1, He, Hc.
  destruct (ApplyColumnFamilyOptions mode _ τ) as [colopts τ1]; simpl in *.
  specialize (IH τ1 Hh1 Hm1). simpl in IH. unfold result, final in IH.
  destruct (for_collect names _ τ1) as [ds τ2]; simpl in *.
  destruct IH as (IHr & IHe & IHc). subst colopts ds.
  split; [reflexivity|]. split; congruence.
Qed.

End Descriptors.

(** ** Creating and opening *)

Section OpenPaths.
Context {W C : Type} `{!rocksdb.Iterator C} `{!rocksdb.Engine W C}.

(** X9: [Initialize], call by call.  It sets the thread pools, then performs
    one engine operation and no other: the engine's Open at the path, with
    the options [ApplyDBOptions] gives for NORMAL plus create_if_missing and
    error_if_exists.  The engine is left as that Open leaves it.  If the
    Open succeeds, [Initialize] returns OK and a [DB] on the pointer the
    engine returned, in NORMAL mode, with the NORMAL write options and no
    collection ([collection] answers NotFound for every name); if it fails,
    [Initialize] returns the mapped error, which is not OK, and no [DB]. *)
Theorem Initialize_engine_calls (dbPath : string) (σ : World W) :
  let r := Initialize dbPath σ in
  let options :=
    rocksdb.set_error_if_exists true
      (rocksdb.set_create_if_missing true
         (result (ApplyDBOptions OpenMode.NORMAL rocksdb.Options_default σ))) in
  let opened := rocksdb.DB_Open options dbPath (engine σ) in
  (rocksdb.create_if_missing options = true ∧ rocksdb.error_if_exists options = true) ∧
  calls (final r) =
    calls σ ++ thread_pool_calls (host σ) ++ [rocksdb.CallOpen options dbPath] ∧
  engine (final r) = opened.2 ∧
  if rocksdb.ok opened.1.1 then
    ∃ d : DB.t,
      result r = (Status.OK, Some d) ∧
      DB.db_ d = opened.1.2 ∧ DB.mode_ d = OpenMode.NORMAL ∧
      DB.write_options_ d = rocksdb.mkWriteOptions false false ∧
      DB.batch_write_options_ d = rocksdb.mkWriteOptions true false ∧
      ∀ name, DB.collection d name =
                (Status.NotFound2 "column family does not exist" name, None)
  else
    result r = (convertStatus opened.1.1, None) ∧
    Status.ok (convertStatus opened.1.1) = false.
Proof.
  intros r options opened. subst r options opened.
  split; [split; reflexivity|].
  unfold Initialize, DB.Initialize, mbind, M_bind, result, final.
  destruct (ApplyDBOptions_log OpenMode.NORMAL rocksdb.Options_default σ)
    as (_ & He & Hc). unfold final in He, Hc.
  destruct (ApplyDBOptions OpenMode.NORMAL rocksdb.Options_default σ) as [o σ1];
    simpl in *.
  unfold engine_call. rewrite He, Hc.
  destruct (rocksdb.DB_Open _ dbPath (engine σ)) as [[s rawdb] w']; simpl.
  destruct (rocksdb.ok s) eqn:Hs; simpl.
  - split; [by rewrite <- app_assoc|]. split; [reflexivity|].
    eexists. split; [reflexivity|]. repeat (split; [reflexivity|]).
    intros name. apply collection_None. apply lookup_empty.
  - split; [by rewrite <- app_assoc|]. split; [reflexivity|].
    split; [reflexivity|]. rewrite convertStatus_ok. exact Hs.
Qed.

(** X10: [Open], call by call.  It sets the thread pools and asks the engine
    for the column families at the path, with the options [ApplyDBOptions]
    gives for the mode plus create_if_missing off.  If listing fails it does
    nothing more: the engine is as it was and the mapped error is returned
    with no [DB].  Otherwise it performs one more engine operation and no
    other: OpenForReadOnly in READ_ONLY mode, Open otherwise, with the same
    options and one descriptor per listed name, in listing order, each with
    the column-family options [ApplyColumnFamilyOptions] gives for the mode.
    The engine is left as that operation leaves it, and no handle and no
    engine is released.  If the operation succeeds, [Open] returns OK and a
    [DB] of the mode asked for on the pointer the engine returned, whose
    mapping pairs the listed names with the returned handles; if it fails,
    [Open] returns the mapped error, which is not OK, and no [DB]. *)
Theorem Open_engine_calls (dbPath : string) (mode : OpenMode.t) (σ : World W) :
  let r := Open dbPath mode σ in
  let options :=
    rocksdb.set_create_if_missing false
      (result (ApplyDBOptions mode rocksdb.Options_default σ)) in
  let listed := rocksdb.DB_ListColumnFamilies options dbPath (engine σ) in
  let colopts :=
    result (ApplyColumnFamilyOptions mode rocksdb.ColumnFamilyOptions_default σ) in
  let column_families := (λ nm, rocksdb.mkCFD nm colopts) <$> listed.2 in
  let opened :=
    if decide (mode = OpenMode.READ_ONLY)
    then rocksdb.DB_OpenForReadOnly options dbPath column_families (engine σ)
    else rocksdb.DB_OpenCF options dbPath column_families (engine σ) in
  rocksdb.create_if_missing options = false ∧
  if rocksdb.ok listed.1 then
    calls (final r) =
      calls σ ++ thread_pool_calls (host σ) ++
      [rocksdb.CallListColumnFamilies options dbPath;
       if decide (mode = OpenMode.READ_ONLY)
       then rocksdb.CallOpenForReadOnly options dbPath column_families
       else rocksdb.CallOpenCF options dbPath column_families] ∧
    engine (final r) = opened.2 ∧
    if rocksdb.ok opened.1.1.1 then
      result r =
        (Status.OK,
         Some (DB.new opened.1.2 (DB.fill_coll2handle listed.2 opened.1.1.2) mode)) ∧
      DB.mode_ (DB.new opened.1.2 (DB.fill_coll2handle listed.2 opened.1.1.2) mode) =
        mode ∧
      DB.db_ (DB.new opened.1.2 (DB.fill_coll2handle listed.2 opened.1.1.2) mode) =
        opened.1.2
    else
      result r = (convertStatus opened.1.1.1, None) ∧
      Status.ok (convertStatus opened.1.1.1) = false
  else
    calls (final r) =
      calls σ ++ thread_pool_calls (host σ) ++
      [rocksdb.CallListColumnFamilies options dbPath] ∧
    engine (final r) = engine σ ∧
    result r = (convertStatus listed.1, None) ∧
    Status.ok (convertStatus listed.1) = false.
Proof.
  intros r options listed colopts column_families opened.
  subst r options listed colopts column_families opened.
  split; [reflexivity|].
  unfold Open, DB.Open, mbind, M_bind, result, final.
  destruct (ApplyDBOptions_log mode rocksdb.Options_default σ) as (_ & He & Hc).
  destruct (ApplyDBOptions_memory mode rocksdb.Options_default σ) as (Hh & Hm).
  unfold final in He, Hc, Hh, Hm.
  destruct (ApplyDBOptions mode rocksdb.Options_default σ) as [o σ1]; simpl in *.
  unfold engine_read, engine_call at 1. rewrite He, Hc.
  destruct (rocksdb.DB_ListColumnFamilies _ dbPath (engine σ)) as [s names]; simpl.
  destruct (rocksdb.ok s) eqn:Hs; simpl.
  - match goal with |- context [for_collect names ?body ?τ] =>
      pose proof (descriptors_closed_form mode names σ τ Hh Hm) as Hd end.
    simpl in Hd. unfold result, final in Hd.
    destruct (for_collect names _ _) as [cfs σ2]; simpl in *.
    destruct Hd as (Hcfs & He2 & Hc2). subst cfs.
    destruct (decide (mode = OpenMode.READ_ONLY));
      unfold engine_call; cbv beta; rewrite He2, Hc2.
    + destruct (rocksdb.DB_OpenForReadOnly _ dbPath _ (engine σ))
        as [[[s2 hs] rawdb] w']; simpl.
      destruct (rocksdb.ok s2) eqn:Hs2; simpl;
        (split; [by rewrite <- !app_assoc|]).
      * split; [reflexivity|]. split; [reflexivity|]. split; apply new_db_.
      * split; [reflexivity|]. split; [reflexivity|].
        rewrite convertStatus_ok. exact Hs2.
    + destruct (rocksdb.DB_OpenCF _ dbPath _ (engine σ))
        as [[[s2 hs] rawdb] w']; simpl.
      destruct (rocksdb.ok s2) eqn:Hs2; simpl;
        (split; [by rewrite <- !app_assoc|]).
      * split; [reflexivity|]. split; [reflexivity|]. split; apply new_db_.
      * split; [reflexivity|]. split; [reflexivity|].
        rewrite convertStatus_ok. exact Hs2.
  - split; [by rewrite <- !app_assoc|]. split; [reflexivity|].
    split; [reflexivity|]. rewrite convertStatus_ok. exact Hs.
Qed.

End OpenPaths.

(** ** Staging, committing, reading *)

Lemma convertStatus_of_ok (s : rocksdb.Status) :
  rocksdb.ok s = true → convertStatus s = Status.OK.
Proof.
  unfold rocksdb.ok, convertStatus.
  destruct (rocksdb.code s); first [ reflexivity | discriminate ].
Qed.

Section StagedWrites.
Context {W C : Type} `{!rocksdb.Iterator C} `{!rocksdb.Engine W C}.
Context `{!rocksdb.AtomicWrite W C}.

(** X11: stage, commit, read back.  A batch made by [begin_writes] holds,
    after any list of [put] calls, exactly those Puts in call order.  After
    [commit], [DB::get] and [get] on a [Reader] from [current] agree; if
    [commit] returned OK, a key that was staged reads back with OK and the
    value staged for it last, and a key that was not staged reads as before;
    if [commit] returned an error, every key reads as before. *)
Theorem staged_commit_read_back (d : DB.t)
    (ps : list (CollectionHandle * string * string)) (coll : CollectionHandle)
    (key : string) (σ : World W) :
  let b := stage ps (DB.begin_writes d).2 in
  let r := WriteBatch.commit b σ in
  WriteBatch.wb_ b = ps ∧
  result (Reader.get (DB.current d).2 coll key (final r)) =
    result (DB.get d coll key (final r)) ∧
  if Status.ok (result r).1 then
    match rocksdb.batch_last ps coll key with
    | Some v => result (DB.get d coll key (final r)) = (Status.OK, v)
    | None => result (DB.get d coll key (final r)) = result (DB.get d coll key σ)
    end
  else result (DB.get d coll key (final r)) = result (DB.get d coll key σ).
Proof.
  intros b r.
  destruct (stage_fields ps (DB.begin_writes d).2) as (Hwb & Hdb & Hbo).
  fold b in Hwb, Hdb, Hbo. simpl in Hwb, Hdb, Hbo.
  split; [exact Hwb|]. split; [reflexivity|].
  assert (∀ τ : World W, result (DB.get d coll key τ) =
            (convertStatus (rocksdb.DB_Get (DB.db_ d) rocksdb.ReadOptions_default
                              coll key (engine τ)).1,
             (rocksdb.DB_Get (DB.db_ d) rocksdb.ReadOptions_default coll key
                (engine τ)).2)) as Hget.
  { intros τ. unfold DB.get, result, mbind, M_bind, engine_read, engine_call.
    destruct (rocksdb.DB_Get _ _ _ _ _) as [s v]. reflexivity. }
  rewrite !Hget.
  pose proof (rocksdb.write_failed_invisible (DB.db_ d) (DB.batch_write_options_ d) ps
                (engine σ)) as Hfail.
  pose proof (rocksdb.write_ok_visible (DB.db_ d) (DB.batch_write_options_ d) ps
                (engine σ)) as Hvis.
  subst r. unfold WriteBatch.commit, result, final, mbind, M_bind, engine_call.
  rewrite Hwb, Hdb, Hbo.
  destruct (rocksdb.DB_Write _ _ _ _) as [[s wb] w']. simpl in *.
  rewrite convertStatus_ok.
  destruct (rocksdb.ok s) eqn:Hs.
  - specialize (Hvis eq_refl rocksdb.ReadOptions_default coll key).
    destruct (rocksdb.batch_last ps coll key) as [v|].
    + destruct Hvis as [Hok Hv]. rewrite (convertStatus_of_ok _ Hok), Hv. reflexivity.
    + rewrite Hvis. reflexivity.
  - rewrite (Hfail eq_refl). reflexivity.
Qed.

End StagedWrites.

(** ** Instances of the further properties on the reference engine *)

(** Witness for X1: the iterator from "a" on a cursor that fails at its
    first advance; three more calls of [next] leave it where it is. *)
Lemma Iterator_error_sticky_witness :
  let it := Sample.iterator_from "a"
              (Ref.inject_iter_fuse 1 (Ref.io_error "read failed") Sample.loaded) in
  Status.ok (Iterator.next it).1 = false ∧
  retry 3 (Iterator.next it).2 = (Iterator.next it).2 ∧
  Iterator.next (retry 3 (Iterator.next it).2) = Iterator.next it.
Proof.
  intros it.
  assert (Status.ok (Iterator.next it).1 = false) as Hbad by (vm_compute; reflexivity).
  split; [exact Hbad|]. exact (Iterator_error_sticky 3 it Hbad).
Defined.

(** Witness for X2: two advances from "a" over the keys a, b, c. *)
Lemma Iterator_buffer_coherent_witness :
  let c := Iterator.iter_ (Sample.iterator_from "a" Sample.loaded) in
  let it := (Iterator.next (Iterator.next (Iterator.new c)).2).2 in
  advance 2 (Iterator.new c) = Some it ∧
  Iterator.iter_ it = Nat.iter 2 rocksdb.Next c ∧
  Iterator.valid it = true ∧ Iterator.key it = "c" ∧ Iterator.value it = "3".
Proof.
  intros c it.
  assert (advance 2 (Iterator.new c) = Some it) as Hrun by (vm_compute; reflexivity).
  split; [exact Hrun|].
  destruct (Iterator_buffer_coherent 2 c it Hrun) as [Hcur _].
  split; [exact Hcur|]. vm_compute. repeat split; reflexivity.
Defined.

(** Witness for X3: creating "c" in a fresh database. *)
Lemma collection_after_create_collection_witness :
  Status.ok (result Sample.created).1 = true ∧
  DB.collection Sample.db0 "c" =
    (Status.NotFound2 "column family does not exist" "c", None) ∧
  DB.collection Sample.db1 "c" = (Status.OK, Some Sample.coll) ∧
  DB.collection Sample.db1 "d" = DB.collection Sample.db0 "d".
Proof.
  assert (Status.ok (result Sample.created).1 = true) as Hok
    by (vm_compute; reflexivity).
  split; [exact Hok|].
  destruct (proj1 (collection_after_create_collection (W := Ref.State) Sample.db0 "c"
                     (final Sample.booted)) Hok) as (Hbefore & Hafter & Hother).
  split; [exact Hbefore|]. split.
  - etransitivity; [exact Hafter|]. vm_compute. reflexivity.
  - apply Hother. discriminate.
Defined.

(** Witness for X4: "c" keeps its handle over later calls, one of which
    creates another collection. *)
Lemma collection_handles_stable_witness :
  let ops := [Client.put Sample.coll "k" "v"; Client.create_collection "d";
              Client.create_collection "c"; Client.begin_writes] in
  DB.collection Sample.db1 "c" = (Status.OK, Some Sample.coll) ∧
  DB.collection (result (Client.run ops Sample.db1 (final Sample.created))) "c" =
    (Status.OK, Some Sample.coll).
Proof.
  intros ops.
  assert (DB.collection Sample.db1 "c" = (Status.OK, Some Sample.coll)) as Hc
    by (vm_compute; reflexivity).
  split; [exact Hc|].
  exact (collection_handles_stable (W := Ref.State) ops Sample.db1
           (final Sample.created) "c" Sample.coll Hc).
Defined.

(** Witness for X5: two column families, listed out of name order. *)
Lemma Open_mapping_matches_engine_handles_witness :
  let d := DB.new 7%nat (DB.fill_coll2handle ["default"; "c"] [0%nat; 1%nat])
             OpenMode.NORMAL in
  DB.collection d "c" = (Status.OK, Some 1%nat) ∧
  DB.collection d "x" = (Status.NotFound2 "column family does not exist" "x", None) ∧
  handles_in_order d ≡ₚ [0%nat; 1%nat].
Proof.
  intros d.
  assert (NoDup ["default"; "c"]) as Hnd.
  { apply NoDup_cons. split; [|apply NoDup_singleton].
    intros Hin. apply list_elem_of_singleton in Hin. discriminate Hin. }
  destruct (Open_mapping_matches_engine_handles ["default"; "c"] [0%nat; 1%nat] 7%nat
              OpenMode.NORMAL Hnd eq_refl) as (Hin & Hout & Hperm).
  split; [|split; [|exact Hperm]].
  - destruct (Hin 1%nat "c" eq_refl) as (h & Hh & Hc).
    injection Hh as <-. exact Hc.
  - apply Hout. intros Hx.
    apply elem_of_cons in Hx as [Hx|Hx]; [discriminate Hx|].
    apply list_elem_of_singleton in Hx. discriminate Hx.
Defined.

(** Witness for X6: a host with two cores and a host with thirty-two. *)
Lemma ApplyDBOptions_thread_pools_witness :
  let small := ApplyDBOptions OpenMode.NORMAL rocksdb.Options_default
                 (initial_world (mkHost 1048576 4096 2) tt) in
  let large := ApplyDBOptions OpenMode.BULK_LOAD rocksdb.Options_default
                 (initial_world (mkHost 1048576 4096 32) tt) in
  (rocksdb.max_background_compactions (result small) = Some 2 ∧
   rocksdb.max_background_flushes (result small) = Some 2) ∧
  (rocksdb.max_background_compactions (result large) = Some 16 ∧
   rocksdb.max_background_flushes (result large) = Some 4).
Proof.
  intros small large. split.
  - destruct (ApplyDBOptions_thread_pools OpenMode.NORMAL rocksdb.Options_default
                (initial_world (mkHost 1048576 4096 2) tt))
      as (c & f & Hc & Hf & _ & _ & _ & _ & Hsmall & _ & _).
    destruct Hsmall as [-> ->]; [simpl; lia|]. split; [exact Hc|exact Hf].
  - destruct (ApplyDBOptions_thread_pools OpenMode.BULK_LOAD rocksdb.Options_default
                (initial_world (mkHost 1048576 4096 32) tt))
      as (c & f & Hc & Hf & _ & _ & _ & _ & _ & Hlarge & _).
    destruct Hlarge as [-> ->]; [simpl; lia|]. split; [exact Hc|exact Hf].
Defined.

(** Witness for X8: a host with 4 GiB, a database created and written to
    between two openings' worth of tuning. *)
Lemma physical_memory_queried_once_witness :
  let first := ApplyColumnFamilyOptions OpenMode.NORMAL
                 rocksdb.ColumnFamilyOptions_default Ref.boot in
  let ops := [Client.create_collection "c"; Client.put 1%nat "k" "v"; Client.current] in
  let later := final (Client.run ops (DB.new 0%nat ∅ OpenMode.NORMAL) (final first)) in
  (memoized Ref.boot = 0 ∧ ram_queries Ref.boot = 0%nat) ∧
  ram_queries (final first) = 1%nat ∧
  memoized (final first) = 4294967296 ∧
  ram_queries later = 1%nat ∧
  memoized later = 4294967296 ∧
  final (ApplyColumnFamilyOptions OpenMode.BULK_LOAD
           rocksdb.ColumnFamilyOptions_default later) = later ∧
  rocksdb.table_factory
    (result (ApplyColumnFamilyOptions OpenMode.BULK_LOAD
               rocksdb.ColumnFamilyOptions_default later)) =
    Some (rocksdb.mkBBTO 2 65536 1073741824).
Proof.
  intros first ops later. split; [split; reflexivity|].
  assert (CInt.size_t_mul (CInt.to_size_t (sc_phys_pages (host Ref.boot)))
            (CInt.to_size_t (sc_pagesize (host Ref.boot))) ≠ 0) as Hram
    by (vm_compute; discriminate).
  destruct (physical_memory_queried_once (W := Ref.State) OpenMode.NORMAL
              OpenMode.BULK_LOAD rocksdb.ColumnFamilyOptions_default
              rocksdb.ColumnFamilyOptions_default ops (DB.new 0%nat ∅ OpenMode.NORMAL)
              Ref.boot eq_refl Hram) as (H1 & H2 & _ & H4 & H5 & H6 & H7).
  repeat split; assumption.
Defined.

(** Witness for X11: "x" staged twice and "y" once, committed on the
    reference engine; "x" reads back with the later value, and "a", which
    was not staged, reads as before. *)
Lemma staged_commit_read_back_witness :
  let ps := [(Sample.coll, "x", "1"); (Sample.coll, "y", "2"); (Sample.coll, "x", "3")] in
  let b := stage ps (DB.begin_writes Sample.db1).2 in
  let r := WriteBatch.commit b Sample.loaded in
  Status.ok (result r).1 = true ∧
  result (DB.get Sample.db1 Sample.coll "x" (final r)) = (Status.OK, "3") ∧
  result (Reader.get (DB.current Sample.db1).2 Sample.coll "x" (final r)) =
    (Status.OK, "3") ∧
  result (DB.get Sample.db1 Sample.coll "a" (final r)) = (Status.OK, "1").
Proof.
  cbv zeta.
  pose proof (staged_commit_read_back (W := Ref.State) Sample.db1
                [(Sample.coll, "x", "1"); (Sample.coll, "y", "2"); (Sample.coll, "x", "3")]
                Sample.coll "x" Sample.loaded) as Hx.
  pose proof (staged_commit_read_back (W := Ref.State) Sample.db1
                [(Sample.coll, "x", "1"); (Sample.coll, "y", "2"); (Sample.coll, "x", "3")]
                Sample.coll "a" Sample.loaded) as Ha.
  cbv zeta in Hx, Ha.
  destruct Hx as (_ & Hreader & Hx). destruct Ha as (_ & _ & Ha).
  match type of Hx with
  | if ?c then _ else _ =>
      assert (c = true) as Hok by (vm_compute; reflexivity)
  end.
  rewrite Hok in Hx, Ha.
  match type of Hx with
  | match ?o with Some _ => _ | None => _ end =>
      assert (o = Some "3") as Hlast by (vm_compute; reflexivity)
  end.
  match type of Ha with
  | match ?o with Some _ => _ | None => _ end =>
      assert (o = None) as Hnone by (vm_compute; reflexivity)
  end.
  rewrite Hlast in Hx. rewrite Hnone in Ha.
  split; [exact Hok|]. split; [exact Hx|]. split.
  - etransitivity; [exact Hreader|exact Hx].
  - etransitivity; [exact Ha|]. vm_compute. reflexivity.
Defined.
